(** * The Kaa C client log collector (kaa_logging.c)

    A shallow embedding of [kaa_logging.c] and the properties of the log
    shipping engine: bucket building, the wire format of the logging
    extension, the handling of the server acknowledgment.

    Conventions.
    - C integers are [Z] with the wrap-around of their width written out:
      [uint16_t], [uint32_t], [size_t] and [ssize_t] (taken 64 bits wide).
    - Pointers into the message buffer are addresses ([Z]); the bytes they
      point to live in a [gmap Z Z] (absent address: byte 0).  A store
      beyond [end] of a writer is still a store.
    - A pointer argument that the code tests against NULL is an [option].
    - The collaborators behind [ext_log_storage_*],
      [ext_log_upload_strategy_decide] and [avro_writer_memory] are
      interfaces (type classes and Section variables); every call made to
      them is recorded, in order, in a list of [ext_call] events.
    - The KAA_LOG_* statements have no effect on the collector, the storage
      or the message and are left out. *)

From Stdlib Require Import ZArith Lia.
From stdpp Require Import base option list gmap.

Local Open Scope Z_scope.

(** ** Machine integers *)

Definition uint8_t (z : Z) : Z := z mod 2 ^ 8.
Definition uint16_t (z : Z) : Z := z mod 2 ^ 16.
Definition uint32_t (z : Z) : Z := z mod 2 ^ 32.
Definition size_t (z : Z) : Z := z mod 2 ^ 64.

(** Conversion to the signed type of the same width (two's complement). *)
Definition ssize_t (z : Z) : Z :=
  let u := size_t z in if u <? 2 ^ 63 then u else u - 2 ^ 64.

(** [sizeof(uint16_t)] and [sizeof(uint32_t)]. *)
Definition sizeof_uint16_t : Z := 2.
Definition sizeof_uint32_t : Z := 4.

(** ** Memory: the bytes behind the message cursors *)

Definition load8 (m : gmap Z Z) (a : Z) : Z := uint8_t (default 0 (m !! a)).
Definition store8 (m : gmap Z Z) (a v : Z) : gmap Z Z := <[a := uint8_t v]> m.

(** Modelled from the spec: the byte order macros of [kaa_common.h], which
    is not part of the sources; all integers on the wire are big-endian.

    [*((uint16_t * ) p) = KAA_HTONS(v)]: the two bytes of [v], high first. *)
Definition store_htons (m : gmap Z Z) (p v : Z) : gmap Z Z :=
  store8 (store8 m p (uint16_t v / 2 ^ 8)) (p + 1) (uint16_t v).

(** [*((uint32_t * ) p) = KAA_HTONL(v)]: the four bytes of [v], high first. *)
Definition store_htonl (m : gmap Z Z) (p v : Z) : gmap Z Z :=
  store8 (store8 (store8 (store8 m p (uint32_t v / 2 ^ 24))
                         (p + 1) (uint32_t v / 2 ^ 16))
                 (p + 2) (uint32_t v / 2 ^ 8))
         (p + 3) (uint32_t v).

(** [KAA_NTOHS( *((uint16_t * ) p))] and [KAA_NTOHL( *((uint32_t * ) p))]. *)
Definition load_ntohs (m : gmap Z Z) (p : Z) : Z :=
  load8 m p * 2 ^ 8 + load8 m (p + 1).
Definition load_ntohl (m : gmap Z Z) (p : Z) : Z :=
  load8 m p * 2 ^ 24 + load8 m (p + 1) * 2 ^ 16
  + load8 m (p + 2) * 2 ^ 8 + load8 m (p + 3).

(** Copy of [data] to [p], [p + 1], ... (what the storage does with the
    buffer it is handed). *)
Fixpoint store_bytes (m : gmap Z Z) (p : Z) (data : list Z) : gmap Z Z :=
  match data with
  | [] => m
  | b :: rest => store_bytes (store8 m p b) (p + 1) rest
  end.

(** [memset(p, 0, n)]. *)
Definition store_zeros (m : gmap Z Z) (p : Z) (n : Z) : gmap Z Z :=
  store_bytes m p (replicate (Z.to_nat n) 0).

(** ** Error codes *)

(** Modelled from the spec: [kaa_error_t] ([kaa_error.h] is not part of the
    sources).  The codes the collector names, and [KAA_ERR_OTHER] for every
    other nonzero code a collaborator may return. *)
Inductive kaa_error_t : Type :=
| KAA_ERR_NONE
| KAA_ERR_NOMEM
| KAA_ERR_BADDATA
| KAA_ERR_BADPARAM
| KAA_ERR_WRITE_FAILED
| KAA_ERR_NOT_FOUND
| KAA_ERR_NOT_INITIALIZED
| KAA_ERR_BAD_STATE
| KAA_ERR_INSUFFICIENT_BUFFER
| KAA_ERR_OTHER (code : Z).

#[global] Instance kaa_error_eq_dec : EqDecision kaa_error_t.
Proof. solve_decision. Defined.

(** [if (error)]: the code is nonzero. *)
Definition is_error (e : kaa_error_t) : bool :=
  match e with KAA_ERR_NONE => false | _ => true end.

(** ** Platform utilities ([kaa_platform_utils], [kaa_platform_common]) *)

(** Modelled from the spec: the bounded cursors of [kaa_platform_utils.h],
    which is not part of the sources: the begin of the buffer, the position
    and the end. *)
Record kaa_platform_message_writer_t : Type := mk_writer {
  w_begin : Z;
  w_current : Z;
  w_end : Z
}.

Record kaa_platform_message_reader_t : Type := mk_reader {
  r_begin : Z;
  r_current : Z;
  r_end : Z
}.

(** Modelled from the spec: the constants of [kaa_platform_common.h], which
    is not part of the sources.  The header is a type tag, the options and a
    4-byte payload length; the collector finds that length
    [sizeof(uint32_t)] bytes after the start of the header. *)
Definition KAA_EXTENSION_HEADER_SIZE : Z := 8.
Definition KAA_ALIGNMENT : Z := 4.
Definition KAA_LOGGING_EXTENSION_TYPE : Z := 4.

Definition KAA_LOGGING_RECEIVE_UPDATES_FLAG : Z := 1.
Definition KAA_MAX_PADDING_LENGTH : Z := 3.

(** Modelled from the spec: [kaa_platform_message_write_extension_header]
    ([kaa_platform_utils.c] is not part of the sources), a bounded-cursor
    primitive: when the header fits before [end] it writes the type tag, the
    options and the payload length, all big-endian, and advances the cursor
    by the header size; otherwise it fails and writes nothing. *)
Definition kaa_platform_message_write_extension_header
    (w : kaa_platform_message_writer_t) (m : gmap Z Z)
    (extension_type options payload_size : Z)
  : kaa_error_t * kaa_platform_message_writer_t * gmap Z Z :=
  if w_current w + KAA_EXTENSION_HEADER_SIZE <=? w_end w then
    let m1 := store_htonl m (w_current w)
                (extension_type * 2 ^ 24 + options mod 2 ^ 24) in
    let m2 := store_htonl m1 (w_current w + 4) payload_size in
    (KAA_ERR_NONE,
     mk_writer (w_begin w) (w_current w + KAA_EXTENSION_HEADER_SIZE) (w_end w),
     m2)
  else (KAA_ERR_WRITE_FAILED, w, m).

(** Modelled from the spec: [kaa_aligned_size_get], the size rounded up to
    the next 4-byte boundary. *)
Definition kaa_aligned_size_get (size : Z) : Z :=
  size + (KAA_ALIGNMENT - size mod KAA_ALIGNMENT) mod KAA_ALIGNMENT.

(** Modelled from the spec: [kaa_platform_message_write_alignment], a
    bounded-cursor primitive: 0 to 3 zero bytes, so that the cursor is again
    on a 4-byte boundary of the message; nothing is written when the padding
    does not fit before [end] (the collector ignores its result). *)
Definition kaa_platform_message_write_alignment
    (w : kaa_platform_message_writer_t) (m : gmap Z Z)
  : kaa_platform_message_writer_t * gmap Z Z :=
  let pad := (KAA_ALIGNMENT - (w_current w - w_begin w) mod KAA_ALIGNMENT)
               mod KAA_ALIGNMENT in
  if w_current w + pad <=? w_end w then
    (mk_writer (w_begin w) (w_current w + pad) (w_end w),
     store_zeros m (w_current w) pad)
  else (w, m).

(** ** The collaborators of the collector *)

(** Modelled from the spec: the Storage Facade ([ext_log_storage.h] and its
    implementations are not part of the sources).  [storage_t] is the state
    behind an [ext_log_storage_t *]; an operation returns its result and the
    state after it.  [ext_log_storage_write_next_record s buffer_len
    bucket_id] returns the error code, the bytes it copied to the buffer
    (their number is [*record_len]) and the next state.  A record that was
    extracted is tagged and no longer eligible:
    [ext_log_storage_eligible] counts the records still eligible. *)
Class ext_log_storage (storage_t : Type) : Type := {
  ext_log_storage_allocate_log_record_buffer :
    storage_t -> Z -> kaa_error_t * storage_t;
  ext_log_storage_deallocate_log_record_buffer : storage_t -> storage_t;
  ext_log_storage_add_log_record :
    storage_t -> list Z -> kaa_error_t * storage_t;
  ext_log_storage_write_next_record :
    storage_t -> Z -> Z -> kaa_error_t * list Z * storage_t;
  ext_log_storage_remove_by_bucket_id : storage_t -> Z -> storage_t;
  ext_log_storage_unmark_by_bucket_id : storage_t -> Z -> storage_t;
  ext_log_storage_shrink_to_size : storage_t -> Z -> kaa_error_t * storage_t;
  ext_log_storage_get_total_size : storage_t -> Z;
  ext_log_storage_get_records_count : storage_t -> Z;
  ext_log_storage_eligible : storage_t -> nat;
  ext_log_storage_extraction_tags :
    forall s buffer_len bucket_id data s',
      ext_log_storage_write_next_record s buffer_len bucket_id
        = (KAA_ERR_NONE, data, s') ->
      (ext_log_storage_eligible s' < ext_log_storage_eligible s)%nat
}.

(** Modelled from the spec: the Strategy Verdict; the collector names
    [CLEANUP] and [UPLOAD] and treats every other value alike. *)
Inductive ext_log_upload_decision_t : Type := NO_ACTION | UPLOAD | CLEANUP.

(** Modelled from the spec: the Upload Strategy, a function of the strategy
    and the storage it is handed (either pointer may be NULL). *)
Class ext_log_upload_strategy (strategy_t storage_t : Type) : Type := {
  ext_log_upload_strategy_decide :
    option strategy_t -> option storage_t -> ext_log_upload_decision_t
}.

(** Modelled from the spec: the status collaborator holding the persisted
    bucket id seed ([kaa_status.c] is not part of the sources). *)
Record kaa_status_t : Type := mk_status { status_log_bucket_id : Z }.

(** Modelled from the spec: [kaa_status_get_log_bucket_id(status, &result)]
    retrieves the persisted seed and can fail: the error code and the value
    of [result] after the call. *)
Definition kaa_status_get_log_bucket_id
    (status : option kaa_status_t) (result : Z) : kaa_error_t * Z :=
  match status with
  | None => (KAA_ERR_BADPARAM, result)
  | Some st => (KAA_ERR_NONE, uint16_t (status_log_bucket_id st))
  end.

(** Modelled from the spec: the channel manager, reduced to whether a sync
    handler is registered for the logging service. *)
Record kaa_channel_manager_t : Type := mk_channel_manager {
  logging_sync_handler : bool
}.

(** Modelled from the spec: [kaa_channel_manager_get_sync_handler] for the
    logging service: whether there is a handler to call. *)
Definition kaa_channel_manager_get_sync_handler
    (cm : option kaa_channel_manager_t) : bool :=
  match cm with Some c => logging_sync_handler c | None => false end.

(** Modelled from the spec: [kaa_user_log_record_t] ([kaa_logging.h] is not
    part of the sources): the result of its [get_size] and the bytes its
    [serialize] writes. *)
Record kaa_user_log_record_t : Type := mk_entry {
  get_size : Z;
  serialize : list Z
}.

(** The calls made to the collaborators, in the order they are made. *)
Inductive ext_call : Type :=
| call_storage_release
| call_allocate_log_record_buffer (size : Z)
| call_deallocate_log_record_buffer
| call_add_log_record (data : list Z)
| call_get_records_count
| call_get_total_size
| call_write_next_record
    (buffer_len bucket_id : Z) (ret : kaa_error_t) (record_len : Z)
| call_remove_by_bucket_id (id : Z)
| call_unmark_by_bucket_id (id : Z)
| call_shrink_to_size (size : Z)
| call_strategy_decide (verdict : ext_log_upload_decision_t)
| call_sync_handler.

(** The calls that go to the Storage Facade. *)
Definition is_storage_call (c : ext_call) : bool :=
  match c with
  | call_strategy_decide _ | call_sync_handler => false
  | _ => true
  end.

(** The records a bucket was filled with: the successful extractions. *)
Definition is_extraction (c : ext_call) : bool :=
  match c with
  | call_write_next_record _ _ KAA_ERR_NONE _ => true
  | _ => false
  end.

Definition extracted (calls : list ext_call) : list ext_call :=
  filter (fun c => is_extraction c = true) calls.

(** Modelled from the spec: the Log Upload Properties. *)
Record kaa_log_upload_properties_t : Type := mk_properties {
  max_log_storage_volume : Z;
  max_log_bucket_size : Z
}.

(** ** The collector *)

Section Collector.

Context {storage_t strategy_t : Type}.
Context `{!ext_log_storage storage_t}.
Context `{!ext_log_upload_strategy strategy_t storage_t}.

(** [avro_writer_memory(buf, len)]: whether a writer was obtained (it is
    NULL when the allocation behind it fails). *)
Variable avro_writer_memory : Z -> bool.

(** [struct kaa_log_collector] (the logger is left out). *)
Record kaa_log_collector_t : Type := mk_collector {
  log_bucket_id : Z;
  log_storage : option storage_t;
  log_upload_strategy : option strategy_t;
  log_properties : kaa_log_upload_properties_t;
  status : option kaa_status_t;
  channel_manager : option kaa_channel_manager_t
}.

Definition set_log_storage (self : kaa_log_collector_t) (s : storage_t)
  : kaa_log_collector_t :=
  mk_collector (log_bucket_id self) (Some s) (log_upload_strategy self)
    (log_properties self) (status self) (channel_manager self).

Definition set_log_bucket_id (self : kaa_log_collector_t) (id : Z)
  : kaa_log_collector_t :=
  mk_collector id (log_storage self) (log_upload_strategy self)
    (log_properties self) (status self) (channel_manager self).

(** What a public operation leaves behind: its return value, the collector
    behind [self] and the calls it made. *)
Record outcome : Type := mk_outcome {
  ret : kaa_error_t;
  self_after : option kaa_log_collector_t;
  calls : list ext_call
}.

(** [kaa_log_collector_create]: [log_collector_p] is the out pointer,
    [calloc_ok] whether KAA_CALLOC returned memory (zeroed). *)
Definition kaa_log_collector_create
    (log_collector_p : option unit) (calloc_ok : bool)
    (status : option kaa_status_t)
    (channel_manager : option kaa_channel_manager_t) : outcome :=
  match log_collector_p with
  | None => mk_outcome KAA_ERR_BADPARAM None []
  | Some _ =>
    if calloc_ok then
      mk_outcome KAA_ERR_NONE
        (Some (mk_collector 0 None None (mk_properties 0 0)
                 status channel_manager)) []
    else mk_outcome KAA_ERR_NOMEM None []
  end.

(** [kaa_logging_init]. *)
Definition kaa_logging_init
    (self : option kaa_log_collector_t) (storage : option storage_t)
    (upload_strategy : option strategy_t)
    (properties : option kaa_log_upload_properties_t) : outcome :=
  match self, storage, properties, upload_strategy with
  | Some c, Some s, Some p, Some u =>
    mk_outcome KAA_ERR_NONE
      (Some (mk_collector (log_bucket_id c) (Some s) (Some u) p
               (status c) (channel_manager c)))
      [call_storage_release]
  | _, _, _, _ => mk_outcome KAA_ERR_BADPARAM self []
  end.

(** [update_storage]: the strategy dispatch.  The storage pointer handed to
    the collaborators may be NULL; the call is made all the same. *)
Definition update_storage (self : kaa_log_collector_t)
  : kaa_log_collector_t * list ext_call :=
  let verdict :=
    ext_log_upload_strategy_decide (log_upload_strategy self)
      (log_storage self) in
  match verdict with
  | CLEANUP =>
    let volume := max_log_storage_volume (log_properties self) in
    match log_storage self with
    | Some s =>
      let '(_, s') := ext_log_storage_shrink_to_size s volume in
      (set_log_storage self s',
       [call_strategy_decide verdict; call_shrink_to_size volume])
    | None =>
      (self, [call_strategy_decide verdict; call_shrink_to_size volume])
    end
  | UPLOAD =>
    if kaa_channel_manager_get_sync_handler (channel_manager self)
    then (self, [call_strategy_decide verdict; call_sync_handler])
    else (self, [call_strategy_decide verdict])
  | NO_ACTION => (self, [call_strategy_decide verdict])
  end.

(** [kaa_logging_add_record]. *)
Definition kaa_logging_add_record
    (self : option kaa_log_collector_t)
    (entry : option kaa_user_log_record_t) : outcome :=
  match self, entry with
  | Some c, Some e =>
    match log_storage c with
    | None => mk_outcome KAA_ERR_NOT_INITIALIZED self []
    | Some s =>
      let size := get_size e in
      if size =? 0 then mk_outcome KAA_ERR_BADDATA self []
      else
        let '(error, s1) :=
          ext_log_storage_allocate_log_record_buffer s size in
        if is_error error then
          mk_outcome error (Some (set_log_storage c s1))
            [call_allocate_log_record_buffer size]
        else if negb (avro_writer_memory size) then
          let s2 := ext_log_storage_deallocate_log_record_buffer s1 in
          mk_outcome KAA_ERR_NOMEM (Some (set_log_storage c s2))
            [call_allocate_log_record_buffer size;
             call_deallocate_log_record_buffer]
        else
          let data := serialize e in
          let '(error, s2) := ext_log_storage_add_log_record s1 data in
          if is_error error then
            let s3 := ext_log_storage_deallocate_log_record_buffer s2 in
            mk_outcome error (Some (set_log_storage c s3))
              [call_allocate_log_record_buffer size;
               call_add_log_record data;
               call_deallocate_log_record_buffer]
          else
            let '(c', upd) := update_storage (set_log_storage c s2) in
            mk_outcome KAA_ERR_NONE (Some c')
              ([call_allocate_log_record_buffer size;
                call_add_log_record data] ++ upd)
    end
  | _, _ => mk_outcome KAA_ERR_BADPARAM self []
  end.

(** [kaa_logging_request_get_size]: [expected_size] is the pointee of the out
    pointer before the call; the second component is the pointee after. *)
Definition kaa_logging_request_get_size
    (self : option kaa_log_collector_t) (expected_size : option Z)
  : outcome * option Z :=
  match self, expected_size with
  | Some c, Some _ =>
    match log_storage c with
    | None => (mk_outcome KAA_ERR_NOT_INITIALIZED self [], expected_size)
    | Some s =>
      let expected := KAA_EXTENSION_HEADER_SIZE in
      let expected := size_t (expected + sizeof_uint32_t) in
      let records_count := ext_log_storage_get_records_count s in
      let total_size := ext_log_storage_get_total_size s in
      let actual_size :=
        size_t (records_count * sizeof_uint32_t
                + records_count * KAA_MAX_PADDING_LENGTH + total_size) in
      let bucket := max_log_bucket_size (log_properties c) in
      let expected :=
        size_t (expected
                + (if actual_size <? bucket then actual_size else bucket)) in
      (mk_outcome KAA_ERR_NONE self
         [call_get_records_count; call_get_total_size],
       Some expected)
    end
  | _, _ => (mk_outcome KAA_ERR_BADPARAM self [], expected_size)
  end.

(** The variables of the extraction loop of [kaa_logging_request_serialize]:
    the storage, [tmp_writer], the message bytes, [remaining_size] and
    [records_count]. *)
Record extraction : Type := mk_extraction {
  ex_storage : storage_t;
  ex_writer : kaa_platform_message_writer_t;
  ex_mem : gmap Z Z;
  ex_remaining_size : Z;
  ex_records_count : Z
}.

(** How the loop is left: [loop_break] falls out of [while (!error)] to the
    code after it, [loop_return] is a [return error] from inside the loop. *)
Inductive loop_exit : Type :=
| loop_break (st : extraction)
| loop_return (error : kaa_error_t) (st : extraction).

(** The loop [while (!error) { ... }], entered with [error] zero; [fuel]
    bounds the number of iterations, [None] is fuel exhausted.  The calls
    are returned in the order they were made. *)
Fixpoint extract_records (fuel : nat) (bucket_id : Z) (st : extraction)
  : option (loop_exit * list ext_call) :=
  match fuel with
  | O => None
  | S fuel' =>
    let w := ex_writer st in
    let buffer_len := size_t (ex_remaining_size st - sizeof_uint32_t) in
    let '(error, data, s') :=
      ext_log_storage_write_next_record (ex_storage st) buffer_len
        bucket_id in
    match error with
    | KAA_ERR_NONE =>
      let record_len := Z.of_nat (length data) in
      let m1 := store_bytes (ex_mem st) (w_current w + sizeof_uint32_t) data in
      let records_count := uint16_t (ex_records_count st + 1) in
      let m2 := store_htonl m1 (w_current w) record_len in
      let w1 := mk_writer (w_begin w)
                  (w_current w + (sizeof_uint32_t + record_len)) (w_end w) in
      let '(w2, m3) := kaa_platform_message_write_alignment w1 m2 in
      let remaining_size :=
        ssize_t (ex_remaining_size st
                 - (kaa_aligned_size_get record_len + sizeof_uint32_t)) in
      match extract_records fuel' bucket_id
              (mk_extraction s' w2 m3 remaining_size records_count) with
      | Some (exit, rest) =>
        Some (exit,
              call_write_next_record buffer_len bucket_id error record_len
                :: rest)
      | None => None
      end
    | KAA_ERR_NOT_FOUND | KAA_ERR_INSUFFICIENT_BUFFER =>
      let st' := mk_extraction s' w (ex_mem st) (ex_remaining_size st)
                   (ex_records_count st) in
      let ev := call_write_next_record buffer_len bucket_id error 0 in
      if ex_records_count st =? 0 then Some (loop_return error st', [ev])
      else Some (loop_break st', [ev])
    | _ =>
      let st' := mk_extraction s' w (ex_mem st) (ex_remaining_size st)
                   (ex_records_count st) in
      Some (loop_return error st',
            [call_write_next_record buffer_len bucket_id error 0])
    end
  end.

(** What [kaa_logging_request_serialize] leaves behind: an [outcome], the
    caller's writer and the message bytes. *)
Record serialized : Type := mk_serialized {
  ser_outcome : outcome;
  ser_writer : option kaa_platform_message_writer_t;
  ser_mem : gmap Z Z
}.

(** The condition [!self->log_bucket_id &&
    kaa_status_get_log_bucket_id(self->status, &self->log_bucket_id)]: its
    value as an error code and [self->log_bucket_id] after it. *)
Definition seed_log_bucket_id (self : kaa_log_collector_t)
  : kaa_error_t * Z :=
  if log_bucket_id self =? 0
  then kaa_status_get_log_bucket_id (status self) (log_bucket_id self)
  else (KAA_ERR_NONE, log_bucket_id self).

(** The initial [remaining_size]: the lesser of [max_log_bucket_size] and
    [tmp_writer.end - tmp_writer.current], compared as [size_t] and stored
    in an [ssize_t]. *)
Definition bucket_budget (self : kaa_log_collector_t)
    (tmp_writer : kaa_platform_message_writer_t) : Z :=
  let room := size_t (w_end tmp_writer - w_current tmp_writer) in
  let bucket := max_log_bucket_size (log_properties self) in
  ssize_t (if bucket <? room then bucket else room).

(** [kaa_logging_request_serialize].  The loop is given one iteration more
    than the storage has eligible records. *)
Definition kaa_logging_request_serialize
    (self : option kaa_log_collector_t)
    (writer : option kaa_platform_message_writer_t) (m : gmap Z Z)
  : option serialized :=
  match self, writer with
  | Some c, Some w =>
    match log_storage c with
    | None =>
      Some (mk_serialized (mk_outcome KAA_ERR_NOT_INITIALIZED self [])
              writer m)
    | Some s =>
      let tmp_writer := w in
      let extension_size_p := w_current tmp_writer + sizeof_uint32_t in
      let '(error, tmp_writer, m) :=
        kaa_platform_message_write_extension_header tmp_writer m
          KAA_LOGGING_EXTENSION_TYPE KAA_LOGGING_RECEIVE_UPDATES_FLAG 0 in
      if is_error error then
        Some (mk_serialized (mk_outcome KAA_ERR_WRITE_FAILED self [])
                writer m)
      else
        let '(seed_error, id) := seed_log_bucket_id c in
        if is_error seed_error then
          Some (mk_serialized
                  (mk_outcome KAA_ERR_BAD_STATE
                     (Some (set_log_bucket_id c id)) [])
                  writer m)
        else
          let id := uint16_t (id + 1) in
          let c := set_log_bucket_id c id in
          let m := store_htons m (w_current tmp_writer) id in
          let records_count_p := w_current tmp_writer + sizeof_uint16_t in
          let tmp_writer :=
            mk_writer (w_begin tmp_writer)
              (w_current tmp_writer + sizeof_uint16_t + sizeof_uint16_t)
              (w_end tmp_writer) in
          let remaining_size := bucket_budget c tmp_writer in
          match extract_records (S (ext_log_storage_eligible s)) id
                  (mk_extraction s tmp_writer m remaining_size 0) with
          | None => None
          | Some (loop_return error st, evs) =>
            Some (mk_serialized
                    (mk_outcome error
                       (Some (set_log_storage c (ex_storage st))) evs)
                    writer (ex_mem st))
          | Some (loop_break st, evs) =>
            let tmp_writer := ex_writer st in
            let total_size :=
              size_t (w_current tmp_writer - w_current w
                      - KAA_EXTENSION_HEADER_SIZE) in
            let m := store_htonl (ex_mem st) extension_size_p total_size in
            let m := store_htons m records_count_p (ex_records_count st) in
            Some (mk_serialized
                    (mk_outcome KAA_ERR_NONE
                       (Some (set_log_storage c (ex_storage st))) evs)
                    (Some tmp_writer) m)
          end
    end
  | _, _ => Some (mk_serialized (mk_outcome KAA_ERR_BADPARAM self []) writer m)
  end.

(** The storage call of [kaa_logging_handle_server_sync] for a result
    byte: removal for [LOGGING_RESULT_SUCCESS], unmarking otherwise.  The
    call is made with whatever [self->log_storage] holds. *)
Definition resolve_bucket (self : kaa_log_collector_t) (id result : Z)
  : kaa_log_collector_t * ext_call :=
  if result =? 0 then
    (match log_storage self with
     | Some s =>
       set_log_storage self (ext_log_storage_remove_by_bucket_id s id)
     | None => self
     end, call_remove_by_bucket_id id)
  else
    (match log_storage self with
     | Some s =>
       set_log_storage self (ext_log_storage_unmark_by_bucket_id s id)
     | None => self
     end, call_unmark_by_bucket_id id).

(** [kaa_logging_handle_server_sync]: the reader is returned as the call
    leaves it; [m] holds the bytes of the message it reads. *)
Definition kaa_logging_handle_server_sync
    (self : option kaa_log_collector_t)
    (reader : option kaa_platform_message_reader_t) (m : gmap Z Z)
    (extension_options extension_length : Z)
  : outcome * option kaa_platform_message_reader_t :=
  match self, reader with
  | Some c, Some r =>
    if sizeof_uint32_t <=? extension_length then
      let id := load_ntohs m (r_current r) in
      let r := mk_reader (r_begin r) (r_current r + sizeof_uint16_t)
                 (r_end r) in
      let result := load8 m (r_current r) in
      let r := mk_reader (r_begin r) (r_current r + sizeof_uint16_t)
                 (r_end r) in
      let '(c1, ev) := resolve_bucket c id result in
      let '(c2, upd) := update_storage c1 in
      (mk_outcome KAA_ERR_NONE (Some c2) (ev :: upd), Some r)
    else (mk_outcome KAA_ERR_NONE self [], reader)
  | _, _ => (mk_outcome KAA_ERR_BADPARAM self [], reader)
  end.

(** [kaa_log_collector_destroy]: the storage is released with the
    collector. *)
Definition kaa_log_collector_destroy (self : option kaa_log_collector_t)
  : list ext_call :=
  match self with
  | Some _ => [call_storage_release]
  | None => []
  end.

End Collector.

Arguments mk_collector {storage_t strategy_t}.
Arguments mk_outcome {storage_t strategy_t}.
Arguments mk_serialized {storage_t strategy_t}.
Arguments mk_extraction {storage_t}.

(** ** Reading the result of a call *)

Definition exit_state {storage_t : Type} (e : @loop_exit storage_t)
  : @extraction storage_t :=
  match e with loop_break st => st | loop_return _ st => st end.

(** The lengths of the records of a bucket, in the order they were packed. *)
Definition record_len_of (c : ext_call) : Z :=
  match c with call_write_next_record _ _ _ n => n | _ => 0 end.

Definition record_lens (calls : list ext_call) : list Z :=
  record_len_of <$> extracted calls.

(** The bucket ids the extraction calls were made with. *)
Definition bucket_id_of (c : ext_call) : option Z :=
  match c with call_write_next_record _ id _ _ => Some id | _ => None end.

(** A framed record: length prefix, payload and padding. *)
Definition framed_size (len pad : Z) : Z := sizeof_uint32_t + len + pad.

Definition sum_list (l : list Z) : Z := foldr Z.add 0 l.

(** [n] calls of [kaa_logging_request_serialize] in a row on one collector,
    each writing at the same writer: the return value of each call and the
    bucket id it put on the wire. *)
Fixpoint successive_bucket_ids {storage_t strategy_t : Type}
    `{!ext_log_storage storage_t}
    (n : nat) (self : option (@kaa_log_collector_t storage_t strategy_t))
    (w : kaa_platform_message_writer_t) (m : gmap Z Z)
  : list (kaa_error_t * Z) :=
  match n with
  | O => []
  | S n' =>
    match kaa_logging_request_serialize self (Some w) m with
    | Some r =>
      (ret (ser_outcome r),
       load_ntohs (ser_mem r) (w_current w + KAA_EXTENSION_HEADER_SIZE))
        :: successive_bucket_ids n' (self_after (ser_outcome r)) w (ser_mem r)
    | None => []
    end
  end.

(** The variables of the extraction loop when it is entered, in a call that
    got past the extension header and the seeding of the bucket id: the
    header and the bucket id [id] are written, the record count is reserved,
    [remaining_size] is the budget and [records_count] is zero. *)
Definition bucket_start {storage_t strategy_t : Type}
    (c : @kaa_log_collector_t storage_t strategy_t) (s : storage_t)
    (w : kaa_platform_message_writer_t) (m : gmap Z Z) (id : Z)
  : @extraction storage_t :=
  let body := w_current w + KAA_EXTENSION_HEADER_SIZE in
  let tmp_writer :=
    mk_writer (w_begin w) (body + sizeof_uint16_t + sizeof_uint16_t)
      (w_end w) in
  mk_extraction s tmp_writer
    (store_htons
       (store_htonl
          (store_htonl m (w_current w)
             (KAA_LOGGING_EXTENSION_TYPE * 2 ^ 24
              + KAA_LOGGING_RECEIVE_UPDATES_FLAG mod 2 ^ 24))
          (w_current w + 4) 0)
       body id)
    (bucket_budget (set_log_bucket_id c id) tmp_writer) 0.

(** ** A reference Storage Facade and Upload Strategy *)

(** Modelled from the spec: a Storage Facade that keeps the records in
    memory.  The eligible records wait in arrival order, the extracted ones
    carry the bucket id they were tagged with.  [alloc_error] and
    [add_error] are the results of buffer allocation and of registration
    ([KAA_ERR_NONE]: they succeed). *)
Record memory_log_storage : Type := mk_memory_log_storage {
  pending_records : list (list Z);
  marked_records : list (Z * list Z);
  alloc_error : kaa_error_t;
  add_error : kaa_error_t
}.

Definition records_size (l : list (list Z)) : Z :=
  foldr (fun r acc => Z.of_nat (length r) + acc) 0 l.

Definition memory_total_size (s : memory_log_storage) : Z :=
  records_size (pending_records s) + records_size (marked_records s).*2.

Definition memory_add_log_record (s : memory_log_storage) (data : list Z)
  : kaa_error_t * memory_log_storage :=
  if is_error (add_error s) then (add_error s, s)
  else (KAA_ERR_NONE,
        mk_memory_log_storage (pending_records s ++ [data])
          (marked_records s) (alloc_error s) (add_error s)).

Definition memory_write_next_record
    (s : memory_log_storage) (buffer_len bucket_id : Z)
  : kaa_error_t * list Z * memory_log_storage :=
  match pending_records s with
  | [] => (KAA_ERR_NOT_FOUND, [], s)
  | r :: rest =>
    if Z.of_nat (length r) <=? buffer_len then
      (KAA_ERR_NONE, r,
       mk_memory_log_storage rest ((bucket_id, r) :: marked_records s)
         (alloc_error s) (add_error s))
    else (KAA_ERR_INSUFFICIENT_BUFFER, [], s)
  end.

Definition memory_remove_by_bucket_id (s : memory_log_storage) (id : Z)
  : memory_log_storage :=
  mk_memory_log_storage (pending_records s)
    (filter (fun r => r.1 ≠ id) (marked_records s))
    (alloc_error s) (add_error s).

Definition memory_unmark_by_bucket_id (s : memory_log_storage) (id : Z)
  : memory_log_storage :=
  mk_memory_log_storage
    (reverse (filter (fun r => r.1 = id) (marked_records s)).*2
       ++ pending_records s)
    (filter (fun r => r.1 ≠ id) (marked_records s))
    (alloc_error s) (add_error s).

(** The oldest eligible records are dropped until the volume fits. *)
Fixpoint drop_to_size (l : list (list Z)) (room : Z) : list (list Z) :=
  match l with
  | [] => []
  | r :: rest => if records_size l <=? room then l else drop_to_size rest room
  end.

Definition memory_shrink_to_size (s : memory_log_storage) (size : Z)
  : kaa_error_t * memory_log_storage :=
  (KAA_ERR_NONE,
   mk_memory_log_storage
     (drop_to_size (pending_records s)
        (size - records_size (marked_records s).*2))
     (marked_records s) (alloc_error s) (add_error s)).

#[global, refine] Instance memory_storage
  : ext_log_storage memory_log_storage := {
  ext_log_storage_allocate_log_record_buffer s size := (alloc_error s, s);
  ext_log_storage_deallocate_log_record_buffer s := s;
  ext_log_storage_add_log_record := memory_add_log_record;
  ext_log_storage_write_next_record := memory_write_next_record;
  ext_log_storage_remove_by_bucket_id := memory_remove_by_bucket_id;
  ext_log_storage_unmark_by_bucket_id := memory_unmark_by_bucket_id;
  ext_log_storage_shrink_to_size := memory_shrink_to_size;
  ext_log_storage_get_total_size := memory_total_size;
  ext_log_storage_get_records_count s :=
    Z.of_nat (length (pending_records s));
  ext_log_storage_eligible s := length (pending_records s)
}.
Proof.
  intros s buffer_len bucket_id data s'. unfold memory_write_next_record.
  destruct (pending_records s) as [|r rest] eqn:Hp; [discriminate|].
  destruct (Z.of_nat (length r) <=? buffer_len); [|discriminate].
  intros [= _ <-]. simpl. lia.
Defined.

(** Modelled from the spec: an Upload Strategy that compares the occupied
    volume of the storage with two thresholds. *)
Record volume_strategy : Type := mk_volume_strategy {
  cleanup_above : Z;
  upload_from : Z
}.

#[global] Instance volume_upload_strategy
  : ext_log_upload_strategy volume_strategy memory_log_storage := {
  ext_log_upload_strategy_decide strategy storage :=
    match strategy, storage with
    | Some u, Some s =>
      if cleanup_above u <? memory_total_size s then CLEANUP
      else if upload_from u <=? memory_total_size s then UPLOAD
      else NO_ACTION
    | _, _ => NO_ACTION
    end
}.

(** ** Sample collectors *)

Definition sample_strategy : volume_strategy := mk_volume_strategy 4096 64.

(** A storage holding the given eligible records. *)
Definition storage_of (records : list (list Z)) : memory_log_storage :=
  mk_memory_log_storage records [] KAA_ERR_NONE KAA_ERR_NONE.

(** An initialised collector that never built a bucket: persisted seed
    [seed], bucket size [bucket]. *)
Definition sample_collector (seed bucket : Z) (s : memory_log_storage)
  : @kaa_log_collector_t memory_log_storage volume_strategy :=
  mk_collector 0 (Some s) (Some sample_strategy) (mk_properties 4096 bucket)
    (Some (mk_status seed)) (Some (mk_channel_manager true)).

(** A collector as [kaa_log_collector_create] leaves it, before
    [kaa_logging_init]. *)
Definition created_collector
  : @kaa_log_collector_t memory_log_storage volume_strategy :=
  mk_collector 0 None None (mk_properties 0 0)
    (Some (mk_status 0)) (Some (mk_channel_manager true)).

Definition sample_writer : kaa_platform_message_writer_t :=
  mk_writer 0 0 1024.

Definition three_records : memory_log_storage :=
  storage_of [[1; 2; 3; 4]; [5; 6; 7; 8]; [9; 10; 11; 12]].

Definition three_long_records : memory_log_storage :=
  storage_of [[1; 2; 3; 4; 5; 6; 7; 8]; [9; 10; 11; 12; 13; 14; 15; 16];
              [17; 18; 19; 20; 21; 22; 23; 24]].

(** 65537 eligible records of one byte each. *)
Definition many_records : memory_log_storage :=
  storage_of (replicate (Z.to_nat 65537) [7]).

(** An acknowledgment: bucket id 1, result byte [result]. *)
Definition ack_message (result : Z) : gmap Z Z :=
  store_bytes ∅ 0 [0; 1; result; 0].

Definition ack_reader : kaa_platform_message_reader_t := mk_reader 0 0 4.

Definition sample_entry : kaa_user_log_record_t := mk_entry 4 [1; 2; 3; 4].

Definition empty_entry : kaa_user_log_record_t := mk_entry 0 [].

(** A storage whose one record went out in bucket 1. *)
Definition marked_storage : memory_log_storage :=
  mk_memory_log_storage [] [(1, [1; 2; 3; 4])] KAA_ERR_NONE KAA_ERR_NONE.

(** A storage that hands out buffers and refuses to register records. *)
Definition refusing_storage : memory_log_storage :=
  mk_memory_log_storage [] [] KAA_ERR_NONE KAA_ERR_NOMEM.

(** ** Reading a bucket back, and the budget *)

(** Modelled from the spec: the reader of the records of a bucket (the
    receiving side is not part of the sources).  Each record is a 4-byte
    big-endian length, the payload, and the padding to the next 4-byte
    boundary; the lengths of [n] records from address [p] on. *)
Fixpoint decode_record_lens (m : gmap Z Z) (p : Z) (n : nat) : list Z :=
  match n with
  | O => []
  | S n' =>
    let len := load_ntohl m p in
    len :: decode_record_lens m
             (p + sizeof_uint32_t + kaa_aligned_size_get len) n'
  end.

(** What the loop of [kaa_logging_request_serialize] takes off
    [remaining_size] for a record of [len] bytes. *)
Definition charged_size (len : Z) : Z :=
  kaa_aligned_size_get len + sizeof_uint32_t.

(** The contract of [ext_log_storage_write_next_record] on the length it is
    given: a record it delivers is no longer than that. *)
Definition storage_honours_buffer_len (storage_t : Type)
    `{!ext_log_storage storage_t} : Prop :=
  ∀ (s : storage_t) buffer_len bucket_id data s',
    ext_log_storage_write_next_record s buffer_len bucket_id
    = (KAA_ERR_NONE, data, s') ->
    Z.of_nat (length data) <= buffer_len.

(** Two states of a collector with the same configuration: strategy,
    properties, status and channel manager are the same, and a storage is
    still installed if one was. *)
Definition same_configuration {storage_t strategy_t : Type}
    (c c' : @kaa_log_collector_t storage_t strategy_t) : Prop :=
  (is_Some (log_storage c) -> is_Some (log_storage c'))
  ∧ log_upload_strategy c' = log_upload_strategy c
  ∧ log_properties c' = log_properties c
  ∧ status c' = status c
  ∧ channel_manager c' = channel_manager c.


(** Records of 5, 2 and 4 bytes. *)
Definition ragged_records : memory_log_storage :=
  storage_of [[1; 2; 3; 4; 5]; [6; 7]; [8; 9; 10; 11]].

(** A writer with room for the extension header and nothing more. *)
Definition header_only_writer : kaa_platform_message_writer_t :=
  mk_writer 0 0 8.

(** * Properties *)

(** ** Bytes and integers *)

Lemma uint16_t_range z : 0 <= uint16_t z < 2 ^ 16.
Proof. unfold uint16_t. apply Z.mod_pos_bound. lia. Qed.

Lemma uint16_t_small z : 0 <= z < 2 ^ 16 -> uint16_t z = z.
Proof. unfold uint16_t. apply Z.mod_small. Qed.

Lemma uint32_t_small z : 0 <= z < 2 ^ 32 -> uint32_t z = z.
Proof. unfold uint32_t. apply Z.mod_small. Qed.

Lemma size_t_small z : 0 <= z < 2 ^ 64 -> size_t z = z.
Proof. unfold size_t. apply Z.mod_small. Qed.

Lemma load8_store8_eq (m : gmap Z Z) a v : load8 (store8 m a v) a = uint8_t v.
Proof.
  unfold load8, store8. rewrite lookup_insert_eq. simpl.
  unfold uint8_t. apply Z.mod_mod. lia.
Qed.

Lemma load8_store8_ne (m : gmap Z Z) a b v :
  a ≠ b -> load8 (store8 m a v) b = load8 m b.
Proof. intros Hne. unfold load8, store8. by rewrite lookup_insert_ne. Qed.

Lemma load_ntohs_store_htons (m : gmap Z Z) p v :
  load_ntohs (store_htons m p v) p = uint16_t v.
Proof.
  unfold load_ntohs, store_htons.
  rewrite load8_store8_eq, (load8_store8_ne _ (p + 1) p) by lia.
  rewrite load8_store8_eq. unfold uint8_t, uint16_t.
  change (2 ^ 8) with 256. change (2 ^ 16) with 65536.
  Z.div_mod_to_equations. lia.
Qed.

Lemma load_ntohl_store_htonl (m : gmap Z Z) p v :
  load_ntohl (store_htonl m p v) p = uint32_t v.
Proof.
  unfold load_ntohl, store_htonl.
  repeat (rewrite load8_store8_eq || rewrite load8_store8_ne by lia).
  unfold uint8_t, uint32_t.
  change (2 ^ 8) with 256. change (2 ^ 16) with 65536.
  change (2 ^ 24) with 16777216. change (2 ^ 32) with 4294967296.
  Z.div_mod_to_equations. lia.
Qed.

(** A 16-bit store leaves a 32-bit field it does not overlap as it was. *)
Lemma load_ntohl_store_htons (m : gmap Z Z) p q v :
  p + 3 < q ∨ q + 1 < p ->
  load_ntohl (store_htons m q v) p = load_ntohl m p.
Proof.
  intros Hd. unfold load_ntohl, store_htons.
  by rewrite !load8_store8_ne by lia.
Qed.

Lemma write_alignment_pad w m w' m' :
  kaa_platform_message_write_alignment w m = (w', m') ->
  ∃ pad, 0 <= pad <= 3 ∧ w_current w' = w_current w + pad
         ∧ w_begin w' = w_begin w ∧ w_end w' = w_end w.
Proof.
  unfold kaa_platform_message_write_alignment, KAA_ALIGNMENT.
  set (pad := (4 - (w_current w - w_begin w) mod 4) mod 4).
  assert (0 <= pad < 4) by (apply Z.mod_pos_bound; lia).
  destruct (_ <=? _); intros [= <- <-]; [exists pad | exists 0]; simpl; lia.
Qed.

Lemma extracted_cons_success bl id n evs :
  extracted (call_write_next_record bl id KAA_ERR_NONE n :: evs)
  = call_write_next_record bl id KAA_ERR_NONE n :: extracted evs.
Proof. reflexivity. Qed.

(** ** The extraction loop *)

Section LoopFacts.

Context {storage_t : Type} `{!ext_log_storage storage_t}.

(** The loop ends: every record it extracts leaves one eligible record
    less, and it is given one iteration more than there are such records. *)
Lemma extract_records_total fuel id (st : extraction) :
  (ext_log_storage_eligible (ex_storage st) < fuel)%nat ->
  is_Some (extract_records fuel id st).
Proof.
  revert st. induction fuel as [|fuel IH]; intros st Hlt; [lia|].
  simpl.
  destruct (ext_log_storage_write_next_record _ _ _)
    as [[error data] s'] eqn:Hw.
  destruct error; try (destruct (_ =? 0)); eauto.
  destruct (kaa_platform_message_write_alignment _ _) as [w2 m3].
  apply ext_log_storage_extraction_tags in Hw.
  destruct (IH (mk_extraction s' w2 m3
    (ssize_t (ex_remaining_size st
              - (kaa_aligned_size_get (Z.of_nat (length data))
                 + sizeof_uint32_t)))
    (uint16_t (ex_records_count st + 1)))) as [[ex evs] ->]; [simpl; lia|].
  eauto.
Qed.

(** [records_count] counts the extractions modulo 2^16. *)
Lemma extract_records_count fuel id (st : extraction) exit evs :
  extract_records fuel id st = Some (exit, evs) ->
  0 <= ex_records_count st < 2 ^ 16 ->
  ex_records_count (exit_state exit)
  = uint16_t (ex_records_count st + Z.of_nat (length (extracted evs))).
Proof.
  revert st exit evs. induction fuel as [|fuel IH]; intros st exit evs; [done|].
  simpl.
  destruct (ext_log_storage_write_next_record _ _ _)
    as [[error data] s'] eqn:Hw.
  destruct error;
    try (destruct (_ =? 0));
    try (intros [= <- <-] Hr; simpl; rewrite Z.add_0_r, uint16_t_small; done).
  destruct (kaa_platform_message_write_alignment _ _) as [w2 m3].
  destruct (extract_records fuel id _) as [[ex rest]|] eqn:Hrec; [|done].
  intros [= <- <-] Hr. apply IH in Hrec; [|apply uint16_t_range].
  rewrite Hrec. simpl ex_records_count.
  rewrite extracted_cons_success. simpl length.
  unfold uint16_t. rewrite Zplus_mod_idemp_l. f_equal. lia.
Qed.

(** The loop is left by [break] only with a nonzero [records_count]. *)
Lemma extract_records_break fuel id (st st' : extraction) evs :
  extract_records fuel id st = Some (loop_break st', evs) ->
  ex_records_count st' ≠ 0.
Proof.
  revert st st' evs. induction fuel as [|fuel IH]; intros st st' evs; [done|].
  simpl.
  destruct (ext_log_storage_write_next_record _ _ _)
    as [[error data] s'] eqn:Hw.
  destruct error; try done;
    try (destruct (_ =? 0) eqn:Hz; [done|]; intros [= <- <-]; simpl; lia).
  destruct (kaa_platform_message_write_alignment _ _) as [w2 m3].
  destruct (extract_records fuel id _) as [[ex rest]|] eqn:Hrec; [|done].
  intros [= -> <-]. by apply IH in Hrec.
Qed.

(** A [return] from inside the loop returns a nonzero code. *)
Lemma extract_records_return fuel id (st st' : extraction) e evs :
  extract_records fuel id st = Some (loop_return e st', evs) ->
  e ≠ KAA_ERR_NONE.
Proof.
  revert st st' evs. induction fuel as [|fuel IH]; intros st st' evs; [done|].
  simpl.
  destruct (ext_log_storage_write_next_record _ _ _)
    as [[error data] s'] eqn:Hw.
  destruct error; try (destruct (_ =? 0)); try (intros [= <- <- <-]; done);
    try done.
  destruct (kaa_platform_message_write_alignment _ _) as [w2 m3].
  destruct (extract_records fuel id _) as [[ex rest]|] eqn:Hrec; [|done].
  intros [= -> <-]. by apply IH in Hrec.
Qed.

(** When the first attempt finds no record, or no room, and nothing was
    packed, the loop returns that code at once. *)
Lemma extract_records_first_failure
    fuel id (st : extraction) exit bl i e n rest :
  extract_records fuel id st
    = Some (exit, call_write_next_record bl i e n :: rest) ->
  ex_records_count st = 0 ->
  e = KAA_ERR_NOT_FOUND ∨ e = KAA_ERR_INSUFFICIENT_BUFFER ->
  ∃ st', exit = loop_return e st' ∧ rest = [].
Proof.
  destruct fuel as [|fuel]; [done|]. simpl.
  destruct (ext_log_storage_write_next_record _ _ _) as [[error data] s'].
  intros Hrun Hz He. rewrite Hz in Hrun. simpl in Hrun.
  destruct error; try (injection Hrun as <- _ _ <- _ <-; eauto);
    try (destruct He; congruence).
  destruct (kaa_platform_message_write_alignment _ _) as [w2 m3].
  destruct (extract_records fuel id _) as [[ex r]|]; [|done].
  injection Hrun as _ _ _ <- _ _. destruct He; congruence.
Qed.

(** The cursor advances by the framed size of every record packed. *)
Lemma extract_records_cursor fuel id (st : extraction) exit evs :
  extract_records fuel id st = Some (exit, evs) ->
  ∃ pads, length pads = length (record_lens evs)
    ∧ Forall (λ p, 0 <= p <= 3) pads
    ∧ w_current (ex_writer (exit_state exit))
      = w_current (ex_writer st)
        + sum_list (zip_with framed_size (record_lens evs) pads).
Proof.
  revert st exit evs. induction fuel as [|fuel IH]; intros st exit evs; [done|].
  simpl.
  destruct (ext_log_storage_write_next_record _ _ _)
    as [[error data] s'] eqn:Hw.
  destruct error;
    try (destruct (_ =? 0));
    try (intros [= <- <-]; exists []; simpl; split_and!;
         [done|constructor|lia]).
  destruct (kaa_platform_message_write_alignment _ _) as [w2 m3] eqn:Hal.
  destruct (extract_records fuel id _) as [[ex rest]|] eqn:Hrec; [|done].
  intros [= <- <-]. apply IH in Hrec as (pads & Hlen & Hpads & Hcur).
  apply write_alignment_pad in Hal as (pad & Hpad & Hc & _ & _).
  exists (pad :: pads). unfold record_lens in *.
  rewrite extracted_cons_success. simpl. split_and!.
  - by rewrite Hlen.
  - by constructor.
  - rewrite Hcur. simpl. rewrite Hc. simpl. unfold framed_size, sum_list.
    rewrite <- !Z.add_assoc. reflexivity.
Qed.

(** Every extraction call of the loop carries the bucket id of the call. *)
Lemma extract_records_bucket_id fuel id (st : extraction) exit evs :
  extract_records fuel id st = Some (exit, evs) ->
  Forall (λ ev, bucket_id_of ev = Some id) evs ∧ evs ≠ [].
Proof.
  revert st exit evs. induction fuel as [|fuel IH]; intros st exit evs; [done|].
  simpl.
  destruct (ext_log_storage_write_next_record _ _ _)
    as [[error data] s'] eqn:Hw.
  destruct error;
    try (destruct (_ =? 0));
    try (intros [= <- <-]; split; [by repeat constructor|done]).
  destruct (kaa_platform_message_write_alignment _ _) as [w2 m3] eqn:Hal.
  destruct (extract_records fuel id _) as [[ex rest]|] eqn:Hrec; [|done].
  intros [= <- <-]. apply IH in Hrec as [Hrec _].
  split; [by constructor|done].
Qed.

(** The cursor never moves back. *)
Lemma extract_records_cursor_mono fuel id (st : extraction) exit evs :
  extract_records fuel id st = Some (exit, evs) ->
  w_current (ex_writer st) <= w_current (ex_writer (exit_state exit)).
Proof.
  revert st exit evs. induction fuel as [|fuel IH]; intros st exit evs; [done|].
  simpl.
  destruct (ext_log_storage_write_next_record _ _ _)
    as [[error data] s'] eqn:Hw.
  destruct error;
    try (destruct (_ =? 0));
    try (intros [= <- <-]; simpl; lia).
  destruct (kaa_platform_message_write_alignment _ _) as [w2 m3] eqn:Hal.
  destruct (extract_records fuel id _) as [[ex rest]|] eqn:Hrec; [|done].
  intros [= <- <-]. apply IH in Hrec.
  apply write_alignment_pad in Hal as (pad & Hpad & Hc & _ & _).
  simpl in *. unfold sizeof_uint32_t in *. lia.
Qed.

End LoopFacts.

(** ** Building a bucket: [kaa_logging_request_serialize] *)

Section SerializeFacts.

Context {storage_t strategy_t : Type}.
Context `{!ext_log_storage storage_t}.
Context `{!ext_log_upload_strategy strategy_t storage_t}.

(** The four ways through [kaa_logging_request_serialize] for a collector
    with a storage. *)
Lemma serialize_cases (c : @kaa_log_collector_t storage_t strategy_t) s w m :
  log_storage c = Some s ->
  (w_end w < w_current w + KAA_EXTENSION_HEADER_SIZE
   ∧ kaa_logging_request_serialize (Some c) (Some w) m
     = Some (mk_serialized (mk_outcome KAA_ERR_WRITE_FAILED (Some c) [])
               (Some w) m))
  ∨ (w_current w + KAA_EXTENSION_HEADER_SIZE <= w_end w
     ∧ ∃ e id0, seed_log_bucket_id c = (e, id0) ∧
       ((e ≠ KAA_ERR_NONE
         ∧ ∃ m', kaa_logging_request_serialize (Some c) (Some w) m
           = Some (mk_serialized
                     (mk_outcome KAA_ERR_BAD_STATE
                        (Some (set_log_bucket_id c id0)) [])
                     (Some w) m'))
        ∨ (e = KAA_ERR_NONE
           ∧ ∃ exit evs,
               let id := uint16_t (id0 + 1) in
               let c' := set_log_bucket_id c id in
               extract_records (S (ext_log_storage_eligible s)) id
                 (bucket_start c s w m id) = Some (exit, evs)
               ∧ kaa_logging_request_serialize (Some c) (Some w) m
                 = Some
                     match exit with
                     | loop_return error st =>
                       mk_serialized
                         (mk_outcome error
                            (Some (set_log_storage c' (ex_storage st))) evs)
                         (Some w) (ex_mem st)
                     | loop_break st =>
                       mk_serialized
                         (mk_outcome KAA_ERR_NONE
                            (Some (set_log_storage c' (ex_storage st))) evs)
                         (Some (ex_writer st))
                         (store_htons
                            (store_htonl (ex_mem st)
                               (w_current w + sizeof_uint32_t)
                               (size_t (w_current (ex_writer st) - w_current w
                                        - KAA_EXTENSION_HEADER_SIZE)))
                            (w_current w + KAA_EXTENSION_HEADER_SIZE
                             + sizeof_uint16_t)
                            (ex_records_count st))
                     end))).
Proof.
  intros Hs. unfold kaa_logging_request_serialize. rewrite Hs.
  unfold kaa_platform_message_write_extension_header.
  destruct (_ <=? _) eqn:Hfit; simpl is_error; cbv iota.
  2:{ left. split; [lia|done]. }
  right. split; [lia|].
  destruct (seed_log_bucket_id c) as [e id0]. exists e, id0. split; [done|].
  destruct (is_error e) eqn:He.
  { left. split; [by destruct e|]. eauto. }
  right. split; [by destruct e|].
  destruct (extract_records_total (S (ext_log_storage_eligible s))
              (uint16_t (id0 + 1))
              (bucket_start c s w m (uint16_t (id0 + 1))))
    as [[exit evs] Hrun]; [simpl; lia|].
  exists exit, evs. cbv zeta. split; [done|].
  unfold bucket_start in Hrun. cbv zeta in Hrun. simpl w_begin in *.
  simpl w_current in *. simpl w_end in *.
  rewrite Hrun. by destruct exit.
Qed.

(** The call returns, whatever it is given. *)
Lemma serialize_returns
    (self : option (@kaa_log_collector_t storage_t strategy_t))
    (writer : option kaa_platform_message_writer_t) (m : gmap Z Z) :
  is_Some (kaa_logging_request_serialize self writer m).
Proof.
  destruct self as [c|], writer as [w|]; try by eexists.
  destruct (log_storage c) as [s|] eqn:Hs.
  - destruct (serialize_cases c s w m Hs)
      as [[_ ->]|[_ (e & id0 & _ &
                     [[_ (m' & ->)]|[_ (exit & evs & _ & ->)]])]];
      by eexists.
  - unfold kaa_logging_request_serialize. rewrite Hs. by eexists.
Qed.

(** C1.  A call of [kaa_logging_request_serialize] on a collector and a
    writer returns.  If its very first extraction attempt reports that
    there is no record, or no room for one, the call returns that error code,
    makes no further attempt and leaves the caller's writer as it was.  If
    the call returns [KAA_ERR_NONE], at least one record was packed, and the
    record count on the wire is not zero: an empty bucket is never
    produced. *)
Theorem serialize_never_builds_empty_bucket
    (c : @kaa_log_collector_t storage_t strategy_t)
    (w : kaa_platform_message_writer_t) (m : gmap Z Z) :
  ∃ r, kaa_logging_request_serialize (Some c) (Some w) m = Some r
    ∧ (∀ buffer_len id e n rest,
         calls (ser_outcome r)
           = call_write_next_record buffer_len id e n :: rest ->
         e = KAA_ERR_NOT_FOUND ∨ e = KAA_ERR_INSUFFICIENT_BUFFER ->
         ret (ser_outcome r) = e ∧ rest = [] ∧ ser_writer r = Some w)
    ∧ (ret (ser_outcome r) = KAA_ERR_NONE ->
         extracted (calls (ser_outcome r)) ≠ []
         ∧ load_ntohs (ser_mem r)
             (w_current w + KAA_EXTENSION_HEADER_SIZE + sizeof_uint16_t) ≠ 0).
Proof.
  destruct (log_storage c) as [s|] eqn:Hs.
  2:{ unfold kaa_logging_request_serialize. rewrite Hs.
      eexists. split; [done|]. simpl. split; [intros; done|done]. }
  destruct (serialize_cases c s w m Hs)
    as [[_ ->]|[_ (e & id0 & Hseed &
                   [[He (m' & ->)]|[-> (exit & evs & Hrun & ->)]])]].
  - eexists. split; [done|]. simpl. split; [intros; done|done].
  - eexists. split; [done|]. simpl. split; [intros; done|done].
  - cbv zeta in Hrun. eexists. split; [done|].
    destruct exit as [st|err st]; simpl.
    + split.
      * intros bl i e n rest -> He.
        eapply extract_records_first_failure in Hrun as (st' & [=] & _); done.
      * intros _.
        pose proof (extract_records_break _ _ _ _ _ Hrun) as Hnz.
        pose proof (extract_records_count _ _ _ _ _ Hrun) as Hcount.
        simpl in Hcount. specialize (Hcount ltac:(lia)). split.
        -- intros Hnil. rewrite Hnil in Hcount. by apply Hnz.
        -- rewrite load_ntohs_store_htons, Hcount.
           rewrite uint16_t_small by apply uint16_t_range.
           by rewrite <- Hcount.
    + split.
      * intros bl i e n rest -> He.
        eapply extract_records_first_failure in Hrun
          as (st' & [= -> ->] & ->); done.
      * intros ->. by apply extract_records_return in Hrun.
Qed.

(** C5 (amended).  When a call of [kaa_logging_request_serialize] returns
    [KAA_ERR_NONE] with N records packed, N below 2^16 and a payload length
    (the bytes from the end of the extension header to the final cursor)
    below 2^32, the header fields decode to these values: the 16-bit
    big-endian count is N and the 32-bit big-endian length is the payload
    length, which is the 2-byte bucket id, the 2-byte count and the framed
    records, each a 4-byte prefix, its payload and 0 to 3 bytes of
    padding. *)
Theorem serialize_header_round_trip
    (c : @kaa_log_collector_t storage_t strategy_t)
    (w w' : kaa_platform_message_writer_t) (m : gmap Z Z) r :
  kaa_logging_request_serialize (Some c) (Some w) m = Some r ->
  ret (ser_outcome r) = KAA_ERR_NONE ->
  ser_writer r = Some w' ->
  Z.of_nat (length (record_lens (calls (ser_outcome r)))) < 2 ^ 16 ->
  w_current w' - w_current w - KAA_EXTENSION_HEADER_SIZE < 2 ^ 32 ->
  load_ntohs (ser_mem r)
    (w_current w + KAA_EXTENSION_HEADER_SIZE + sizeof_uint16_t)
  = Z.of_nat (length (record_lens (calls (ser_outcome r))))
  ∧ load_ntohl (ser_mem r) (w_current w + sizeof_uint32_t)
    = w_current w' - w_current w - KAA_EXTENSION_HEADER_SIZE
  ∧ ∃ pads,
      length pads = length (record_lens (calls (ser_outcome r)))
      ∧ Forall (λ p, 0 <= p <= 3) pads
      ∧ w_current w' - w_current w - KAA_EXTENSION_HEADER_SIZE
        = sizeof_uint16_t + sizeof_uint16_t
          + sum_list
              (zip_with framed_size (record_lens (calls (ser_outcome r)))
                 pads).
Proof.
  destruct (log_storage c) as [s|] eqn:Hs.
  2:{ unfold kaa_logging_request_serialize. rewrite Hs. by intros [= <-]. }
  destruct (serialize_cases c s w m Hs)
    as [[_ ->]|[_ (e & id0 & Hseed &
                   [[He (m' & ->)]|[-> (exit & evs & Hrun & ->)]])]];
    try by intros [= <-].
  cbv zeta in Hrun. intros [= <-].
  destruct exit as [st|err st]; simpl.
  2:{ intros ->. by apply extract_records_return in Hrun. }
  intros _ [= <-] HN Htotal.
  pose proof (extract_records_count _ _ _ _ _ Hrun) as Hcount.
  pose proof (extract_records_cursor _ _ _ _ _ Hrun)
    as (pads & Hlen & Hpads & Hcur).
  pose proof (extract_records_cursor_mono _ _ _ _ _ Hrun) as Hmono.
  simpl in Hcount, Hcur, Hmono. specialize (Hcount ltac:(lia)).
  unfold record_lens in HN |- *. rewrite length_fmap in HN |- *.
  unfold KAA_EXTENSION_HEADER_SIZE, sizeof_uint16_t, sizeof_uint32_t in *.
  split_and!.
  - rewrite load_ntohs_store_htons, Hcount.
    rewrite uint16_t_small by apply uint16_t_range.
    apply uint16_t_small. lia.
  - rewrite load_ntohl_store_htons by lia.
    rewrite load_ntohl_store_htonl.
    rewrite size_t_small by lia. apply uint32_t_small. lia.
  - exists pads. unfold record_lens in Hlen. rewrite length_fmap in Hlen.
    split_and!; [done|done|]. rewrite Hcur. unfold record_lens. lia.
Qed.

Lemma update_storage_log_bucket_id
    (c : @kaa_log_collector_t storage_t strategy_t) :
  log_bucket_id (update_storage c).1 = log_bucket_id c.
Proof. unfold update_storage. by repeat case_match. Qed.

(** C10.  In a call of [kaa_logging_request_serialize] that wrote the
    extension header and seeded the bucket id (to [id0]), the counter ends as
    [id0 + 1] modulo 2^16 whatever the call returns, and the extraction
    attempts, of which there is at least one, are all made with that
    incremented id.  [kaa_logging_init], [kaa_logging_add_record],
    [kaa_logging_request_get_size] and [kaa_logging_handle_server_sync] leave
    the counter of any collector as it was. *)
Theorem bucket_id_consumed_once
    (avro_writer_memory : Z -> bool)
    (c c0 : @kaa_log_collector_t storage_t strategy_t) (s : storage_t)
    (w : kaa_platform_message_writer_t) (m m0 : gmap Z Z) (id0 : Z)
    entry size reader options len storage strategy properties :
  log_storage c = Some s ->
  w_current w + KAA_EXTENSION_HEADER_SIZE <= w_end w ->
  seed_log_bucket_id c = (KAA_ERR_NONE, id0) ->
  (∃ r c',
      kaa_logging_request_serialize (Some c) (Some w) m = Some r
      ∧ self_after (ser_outcome r) = Some c'
      ∧ log_bucket_id c' = uint16_t (id0 + 1)
      ∧ calls (ser_outcome r) ≠ []
      ∧ Forall (λ ev, bucket_id_of ev = Some (uint16_t (id0 + 1)))
          (calls (ser_outcome r)))
  ∧ log_bucket_id <$>
      self_after (kaa_logging_init (Some c0) storage strategy properties)
    = Some (log_bucket_id c0)
  ∧ log_bucket_id <$>
      self_after (kaa_logging_add_record avro_writer_memory (Some c0) entry)
    = Some (log_bucket_id c0)
  ∧ log_bucket_id <$>
      self_after (kaa_logging_request_get_size (Some c0) size).1
    = Some (log_bucket_id c0)
  ∧ log_bucket_id <$>
      self_after
        (kaa_logging_handle_server_sync (Some c0) reader m0 options len).1
    = Some (log_bucket_id c0).
Proof.
  intros Hs Hfit Hseed. split_and!.
  - destruct (serialize_cases c s w m Hs)
      as [[? _]|[_ (e & id1 & Hseed' &
                    [[He _]|[-> (exit & evs & Hrun & ->)]])]];
      [lia|congruence|].
    rewrite Hseed in Hseed'. injection Hseed' as <-. cbv zeta in Hrun.
    apply extract_records_bucket_id in Hrun as [Hids Hne].
    destruct exit as [st|err st]; eexists _, _; by split_and!.
  - unfold kaa_logging_init. by repeat case_match.
  - unfold kaa_logging_add_record.
    repeat case_match; simpl; try done.
    match goal with
    | H : update_storage ?x = _ |- _ =>
      pose proof (update_storage_log_bucket_id x) as Hu; rewrite H in Hu
    end.
    simpl in Hu. by rewrite Hu.
  - unfold kaa_logging_request_get_size. by repeat case_match.
  - unfold kaa_logging_handle_server_sync, resolve_bucket.
    repeat case_match; simplify_eq; simpl; try done;
      match goal with
      | H : update_storage ?x = _ |- _ =>
        pose proof (update_storage_log_bucket_id x) as Hu; rewrite H in Hu
      end;
      simpl in Hu; by rewrite Hu.
Qed.

End SerializeFacts.

(** ** Adding records, estimating the request, resolving a bucket *)

Section OperationFacts.

Context {storage_t strategy_t : Type}.
Context `{!ext_log_storage storage_t}.
Context `{!ext_log_upload_strategy strategy_t storage_t}.

Variable avro_writer_memory : Z -> bool.

(** The strategy dispatch starts with the verdict of the strategy on the
    storage as it stands. *)
Lemma update_storage_decides (c : @kaa_log_collector_t storage_t strategy_t) :
  ∃ rest,
    (update_storage c).2
    = call_strategy_decide
        (ext_log_upload_strategy_decide (log_upload_strategy c)
           (log_storage c)) :: rest.
Proof. unfold update_storage. repeat case_match; simpl; eauto. Qed.

(** C4.  [kaa_logging_handle_server_sync] on a collector with a storage.
    An extension shorter than 4 bytes is ignored: [KAA_ERR_NONE], no call,
    the collector and the reader untouched.  Otherwise the bucket id is the
    16-bit big-endian value of bytes 0 and 1 and the result is byte 2; a
    zero result removes the records of that bucket id from the storage, a
    nonzero result unmarks them, and either way the strategy dispatch runs
    next, on the storage as the removal or unmarking left it; the call
    returns [KAA_ERR_NONE] with the reader 4 bytes further. *)
Theorem handle_server_sync_resolves_bucket
    (c : @kaa_log_collector_t storage_t strategy_t) (s : storage_t)
    (r : kaa_platform_message_reader_t) (m : gmap Z Z)
    (extension_options extension_length : Z) :
  log_storage c = Some s ->
  let id := load_ntohs m (r_current r) in
  let result := load8 m (r_current r + 2) in
  let out :=
    kaa_logging_handle_server_sync (Some c) (Some r) m extension_options
      extension_length in
  (extension_length < 4 ->
   out = (mk_outcome KAA_ERR_NONE (Some c) [], Some r))
  ∧ (4 <= extension_length ->
     ∃ s1 ev,
       (result = 0 ∧ s1 = ext_log_storage_remove_by_bucket_id s id
        ∧ ev = call_remove_by_bucket_id id
        ∨ result ≠ 0 ∧ s1 = ext_log_storage_unmark_by_bucket_id s id
          ∧ ev = call_unmark_by_bucket_id id)
       ∧ out
         = (mk_outcome KAA_ERR_NONE
              (Some (update_storage (set_log_storage c s1)).1)
              (ev :: (update_storage (set_log_storage c s1)).2),
            Some (mk_reader (r_begin r) (r_current r + 4) (r_end r)))
       ∧ ∃ rest,
           (update_storage (set_log_storage c s1)).2
           = call_strategy_decide
               (ext_log_upload_strategy_decide (log_upload_strategy c)
                  (Some s1)) :: rest).
Proof.
  intros Hs id result out. subst out.
  unfold kaa_logging_handle_server_sync, sizeof_uint32_t. split.
  - intros Hlen. destruct (4 <=? extension_length) eqn:Hle; [lia|done].
  - intros Hlen. destruct (4 <=? extension_length) eqn:Hle; [|lia].
    simpl r_current. simpl r_begin. simpl r_end.
    unfold resolve_bucket, sizeof_uint16_t. rewrite Hs. fold result. fold id.
    destruct (result =? 0) eqn:Hres.
    + exists (ext_log_storage_remove_by_bucket_id s id),
        (call_remove_by_bucket_id id).
      split; [left; split_and!; [lia|done|done]|].
      split; [|apply (update_storage_decides (set_log_storage c _))].
      destruct (update_storage _) as [c2 upd]. simpl.
      do 3 f_equal. lia.
    + exists (ext_log_storage_unmark_by_bucket_id s id),
        (call_unmark_by_bucket_id id).
      split; [right; split_and!; [lia|done|done]|].
      split; [|apply (update_storage_decides (set_log_storage c _))].
      destruct (update_storage _) as [c2 upd]. simpl.
      do 3 f_equal. lia.
Qed.

(** C6.  On a collector whose storage was never configured,
    [kaa_logging_add_record], [kaa_logging_request_get_size] and
    [kaa_logging_request_serialize] return [KAA_ERR_NOT_INITIALIZED] and make
    no call.  [kaa_logging_handle_server_sync] has no such guard: it returns
    [KAA_ERR_NONE], and for an extension of 4 bytes or more it calls the
    Storage Facade with the NULL storage. *)
Theorem server_sync_lacks_initialization_guard
    (c : @kaa_log_collector_t storage_t strategy_t)
    (e : kaa_user_log_record_t) (size : Z)
    (w : kaa_platform_message_writer_t)
    (r : kaa_platform_message_reader_t) (m : gmap Z Z)
    (extension_options extension_length : Z) :
  log_storage c = None ->
  kaa_logging_add_record avro_writer_memory (Some c) (Some e)
  = mk_outcome KAA_ERR_NOT_INITIALIZED (Some c) []
  ∧ kaa_logging_request_get_size (Some c) (Some size)
    = (mk_outcome KAA_ERR_NOT_INITIALIZED (Some c) [], Some size)
  ∧ kaa_logging_request_serialize (Some c) (Some w) m
    = Some (mk_serialized (mk_outcome KAA_ERR_NOT_INITIALIZED (Some c) [])
              (Some w) m)
  ∧ ret (kaa_logging_handle_server_sync (Some c) (Some r) m
           extension_options extension_length).1 = KAA_ERR_NONE
  ∧ (4 <= extension_length ->
     ∃ ev rest,
       calls (kaa_logging_handle_server_sync (Some c) (Some r) m
                extension_options extension_length).1 = ev :: rest
       ∧ is_storage_call ev = true).
Proof.
  intros Hs. split_and!.
  - unfold kaa_logging_add_record. by rewrite Hs.
  - unfold kaa_logging_request_get_size. by rewrite Hs.
  - unfold kaa_logging_request_serialize. by rewrite Hs.
  - unfold kaa_logging_handle_server_sync. by repeat case_match.
  - intros Hlen. unfold kaa_logging_handle_server_sync, sizeof_uint32_t.
    destruct (4 <=? extension_length) eqn:Hle; [|lia].
    unfold resolve_bucket. rewrite Hs.
    destruct (_ =? 0); destruct (update_storage c) as [c2 upd]; simpl;
      eauto.
Qed.

(** C7.  [kaa_logging_add_record] with a record whose serialized size is
    zero fails and makes no call at all, whatever the collector; the
    collector is left as it was.  On a collector with a storage the error is
    [KAA_ERR_BADDATA]. *)
Theorem add_record_rejects_empty_record
    (self : option (@kaa_log_collector_t storage_t strategy_t))
    (e : kaa_user_log_record_t) :
  get_size e = 0 ->
  let out := kaa_logging_add_record avro_writer_memory self (Some e) in
  calls out = [] ∧ self_after out = self ∧ ret out ≠ KAA_ERR_NONE
  ∧ ∀ c s, self = Some c -> log_storage c = Some s ->
           ret out = KAA_ERR_BADDATA.
Proof.
  intros Hsize. unfold kaa_logging_add_record. rewrite Hsize. simpl.
  destruct self as [c|]; [|by split_and!].
  destruct (log_storage c) as [s|] eqn:Hs; split_and!; try done.
  intros c' s' [= <-]. congruence.
Qed.

(** C8.  [kaa_logging_add_record] of a non-empty record on a collector with a
    storage, by the first step that fails.  When the buffer allocation fails,
    its error is returned and nothing else is called.  When no avro writer is
    obtained for the buffer, the buffer is deallocated and [KAA_ERR_NOMEM]
    returned.  When the registration fails, the buffer is deallocated and the
    error of the registration returned.  In none of these is a record
    registered, and the strategy is not consulted. *)
Theorem add_record_failure_releases_buffer
    (c : @kaa_log_collector_t storage_t strategy_t) (s : storage_t)
    (e : kaa_user_log_record_t) :
  log_storage c = Some s ->
  get_size e ≠ 0 ->
  let size := get_size e in
  let allocated := ext_log_storage_allocate_log_record_buffer s size in
  let added := ext_log_storage_add_log_record allocated.2 (serialize e) in
  let out := kaa_logging_add_record avro_writer_memory (Some c) (Some e) in
  (allocated.1 ≠ KAA_ERR_NONE ->
   out = mk_outcome allocated.1 (Some (set_log_storage c allocated.2))
            [call_allocate_log_record_buffer size])
  ∧ (allocated.1 = KAA_ERR_NONE -> avro_writer_memory size = false ->
     out = mk_outcome KAA_ERR_NOMEM
              (Some (set_log_storage c
                       (ext_log_storage_deallocate_log_record_buffer
                          allocated.2)))
              [call_allocate_log_record_buffer size;
               call_deallocate_log_record_buffer])
  ∧ (allocated.1 = KAA_ERR_NONE -> avro_writer_memory size = true ->
     added.1 ≠ KAA_ERR_NONE ->
     out = mk_outcome added.1
              (Some (set_log_storage c
                       (ext_log_storage_deallocate_log_record_buffer
                          added.2)))
              [call_allocate_log_record_buffer size;
               call_add_log_record (serialize e);
               call_deallocate_log_record_buffer]).
Proof.
  intros Hs Hsize size allocated added out. subst out added allocated.
  unfold kaa_logging_add_record. rewrite Hs. fold size.
  destruct (size =? 0) eqn:Hz; [lia|].
  destruct (ext_log_storage_allocate_log_record_buffer s size) as [e1 s1].
  simpl. split_and!.
  - intros He1. by destruct e1.
  - intros -> ->. done.
  - intros -> ->. simpl.
    destruct (ext_log_storage_add_log_record s1 (serialize e)) as [e2 s2].
    simpl. intros He2. by destruct e2.
Qed.

(** C9.  [kaa_logging_request_get_size] on a collector with a storage whose
    figures fit [size_t]: the estimate is the extension header, the 4-byte
    id and count field, and the lesser of the pending volume (4 bytes of
    prefix and 3 of padding for each record, and the payload bytes) and the
    maximum bucket size.  With no record and no byte in the storage it is
    the header and the id and count field alone. *)
Theorem request_size_estimate
    (c : @kaa_log_collector_t storage_t strategy_t) (s : storage_t)
    (expected_size : Z) :
  log_storage c = Some s ->
  let count := ext_log_storage_get_records_count s in
  let total := ext_log_storage_get_total_size s in
  let bucket := max_log_bucket_size (log_properties c) in
  let estimate :=
    (kaa_logging_request_get_size (Some c) (Some expected_size)).2 in
  0 <= count -> 0 <= total -> 0 <= bucket ->
  KAA_EXTENSION_HEADER_SIZE + 4 + (count * 4 + count * 3 + total) < 2 ^ 64 ->
  ret (kaa_logging_request_get_size (Some c) (Some expected_size)).1
  = KAA_ERR_NONE
  ∧ estimate
    = Some (KAA_EXTENSION_HEADER_SIZE + 4
            + Z.min (count * 4 + count * 3 + total) bucket)
  ∧ (count = 0 -> total = 0 ->
     estimate = Some (KAA_EXTENSION_HEADER_SIZE + 4)).
Proof.
  intros Hs count total bucket estimate Hc Ht Hb Hfit. subst estimate.
  unfold kaa_logging_request_get_size. rewrite Hs. simpl.
  fold count. fold total. fold bucket.
  unfold KAA_EXTENSION_HEADER_SIZE, sizeof_uint32_t, KAA_MAX_PADDING_LENGTH
    in *.
  rewrite (size_t_small (8 + 4)) by lia.
  rewrite (size_t_small (count * 4 + count * 3 + total)) by lia.
  assert (Hmin : (if count * 4 + count * 3 + total <? bucket
                  then count * 4 + count * 3 + total else bucket)
                 = Z.min (count * 4 + count * 3 + total) bucket).
  { destruct (_ <? _) eqn:Hlt; lia. }
  rewrite Hmin. rewrite size_t_small by lia.
  split_and!; [done|done|].
  intros -> ->. f_equal. lia.
Qed.

End OperationFacts.

(** ** The collector on the reference storage *)

(** C2.  Bucket size 16, room to spare in the buffer, three eligible
    records of 4 bytes: the budget is 16, the call returns [KAA_ERR_NONE]
    and has packed all three records, 24 bytes of prefixes and payloads.
    After the second record [remaining_size] is 0, and the length handed to
    the storage, [remaining_size - sizeof(uint32_t)] as a [size_t], is
    2^64 - 4. *)
Theorem serialize_overruns_budget :
  bucket_budget (sample_collector 0 16 three_records) (mk_writer 0 12 1024)
  = 16
  ∧ ∃ r w',
      kaa_logging_request_serialize
        (Some (sample_collector 0 16 three_records)) (Some sample_writer) ∅
      = Some r
      ∧ ret (ser_outcome r) = KAA_ERR_NONE
      ∧ ser_writer r = Some w'
      ∧ calls (ser_outcome r)
        = [call_write_next_record 12 1 KAA_ERR_NONE 4;
           call_write_next_record 4 1 KAA_ERR_NONE 4;
           call_write_next_record (2 ^ 64 - 4) 1 KAA_ERR_NONE 4;
           call_write_next_record (2 ^ 64 - 12) 1 KAA_ERR_NOT_FOUND 0]
      ∧ w_current w'
        - (w_current sample_writer + KAA_EXTENSION_HEADER_SIZE
           + sizeof_uint16_t + sizeof_uint16_t) = 24.
Proof.
  split; [reflexivity|].
  eexists _, _. split; [vm_compute; reflexivity|].
  split_and!; reflexivity.
Qed.

(** C3.  Persisted seed 65534, bucket size 20 and three eligible records of
    8 bytes, so that each call packs one record: three calls in a row return
    [KAA_ERR_NONE] and put the bucket ids 65535, 0 and 65535 on the wire.
    The counter at 0 after the wrap-around is taken for a counter that was
    never seeded, and the third call starts again from the seed. *)
Theorem bucket_id_reseeded_after_wraparound :
  successive_bucket_ids 3
    (Some (sample_collector 65534 20 three_long_records)) sample_writer ∅
  = [(KAA_ERR_NONE, 65535); (KAA_ERR_NONE, 0); (KAA_ERR_NONE, 65535)].
Proof. vm_compute. reflexivity. Qed.

(** With [n] eligible records of one byte and room for all of them, the
    loop packs all [n]; it is left by [break] unless the 16-bit count came
    back to zero. *)
Lemma uniform_records_extraction (n : nat) :
  ∀ fuel id marked w m remaining count,
    (n < fuel)%nat ->
    8 * Z.of_nat n + 4 <= remaining < 2 ^ 63 ->
    ∃ exit evs,
      extract_records fuel id
        (mk_extraction
           (mk_memory_log_storage (replicate n [7]) marked
              KAA_ERR_NONE KAA_ERR_NONE)
           w m remaining count) = Some (exit, evs)
      ∧ Z.of_nat (length (extracted evs)) = Z.of_nat n
      ∧ (ex_records_count (exit_state exit) ≠ 0 ->
         ∃ st', exit = loop_break st').
Proof.
  assert (H63 : 2 ^ 63 = 9223372036854775808) by reflexivity.
  assert (H64 : 2 ^ 64 = 18446744073709551616) by reflexivity.
  induction n as [|n IH]; intros fuel id marked w m remaining count Hfuel Hrem;
    (destruct fuel as [|fuel]; [lia|]).
  - simpl. destruct (count =? 0) eqn:Hc; eexists _, _; (split; [done|]);
      simpl; split; try done; [lia|eauto].
  - cbn [replicate extract_records ex_storage ex_remaining_size
           ext_log_storage_write_next_record memory_storage].
    unfold memory_write_next_record. cbn [pending_records length].
    rewrite size_t_small by (unfold sizeof_uint32_t; lia).
    destruct (_ <=? _) eqn:Hle;
      [|apply Z.leb_gt in Hle; unfold sizeof_uint32_t in Hle; lia].
    destruct (kaa_platform_message_write_alignment _ _) as [w2 m3].
    cbn [marked_records alloc_error add_error ex_records_count].
    change (kaa_aligned_size_get (Z.of_nat (length [7]))) with 4.
    assert (Hrest : ssize_t (remaining - (4 + sizeof_uint32_t))
                    = remaining - 8).
    { unfold ssize_t, sizeof_uint32_t. rewrite size_t_small by lia.
      destruct (_ <? _) eqn:Hlt; [done|]. apply Z.ltb_ge in Hlt. lia. }
    rewrite Hrest.
    destruct (IH fuel id ((id, [7]) :: marked) w2 m3 (remaining - 8)
                (uint16_t (count + 1)))
      as (exit & evs & -> & Hn & Hbreak); [lia|lia|].
    eexists _, _. split; [done|]. rewrite extracted_cons_success.
    split; [|done]. simpl length. lia.
Qed.

(** C5, counterexample.  The round trip of the record count fails beyond
    the width of the count field: a bucket of 65537 records of one byte is
    encoded with [KAA_ERR_NONE], and its count field does not decode to
    65537 (it holds 1). *)
Lemma serialize_record_count_wraps :
  ∃ r,
    kaa_logging_request_serialize
      (Some (sample_collector 0 (2 ^ 20) many_records))
      (Some (mk_writer 0 0 (2 ^ 20))) ∅ = Some r
    ∧ ret (ser_outcome r) = KAA_ERR_NONE
    ∧ Z.of_nat (length (record_lens (calls (ser_outcome r)))) = 65537
    ∧ load_ntohs (ser_mem r) (0 + KAA_EXTENSION_HEADER_SIZE + sizeof_uint16_t)
      ≠ Z.of_nat (length (record_lens (calls (ser_outcome r)))).
Proof.
  unfold many_records, storage_of.
  remember (Z.to_nat 65537) as n eqn:Hn.
  assert (HN : Z.of_nat n = 65537) by (subst n; apply Z2Nat.id; done).
  clear Hn.
  set (s := mk_memory_log_storage (replicate n [7]) [] KAA_ERR_NONE
              KAA_ERR_NONE).
  destruct (serialize_cases (sample_collector 0 (2 ^ 20) s) s
              (mk_writer 0 0 (2 ^ 20)) ∅ eq_refl)
    as [[Hfit _]|[_ (e & id0 & Hseed & Hcases)]].
  { vm_compute in Hfit. discriminate. }
  injection Hseed as <- <-.
  destruct Hcases as [[He _]|[_ (exit & evs & Hrun & ->)]]; [done|].
  cbv zeta in Hrun.
  pose proof (extract_records_count _ _ _ _ _ Hrun) as Hcount.
  destruct (uniform_records_extraction n (S n) (uint16_t (uint16_t 0 + 1)) []
              (mk_writer 0 12 (2 ^ 20))
              (ex_mem (bucket_start (sample_collector 0 (2 ^ 20) s) s
                         (mk_writer 0 0 (2 ^ 20)) ∅
                         (uint16_t (uint16_t 0 + 1))))
              1048564 0)
    as (exit' & evs' & Hrun' & Hlen & Hbreak); [lia|split; [lia|done]|].
  assert (Hsame : Some (exit, evs) = Some (exit', evs')).
  { rewrite <- Hrun, <- Hrun'. f_equal.
    - simpl. by rewrite length_replicate.
  }
  injection Hsame as <- <-.
  simpl in Hcount. specialize (Hcount ltac:(done)).
  rewrite Hlen, HN in Hcount. change (uint16_t (0 + 65537)) with 1 in Hcount.
  destruct Hbreak as [st' ->]; [rewrite Hcount; done|].
  simpl in Hcount.
  eexists. split; [done|]. simpl.
  unfold record_lens. rewrite length_fmap, Hlen, HN.
  split_and!; [done|done|].
  rewrite load_ntohs_store_htons, Hcount. done.
Qed.

(** *** Instances of the statements above *)

Lemma serialize_never_builds_empty_bucket_witness :
  ∃ r,
    kaa_logging_request_serialize
      (Some (sample_collector 0 1024 (storage_of []))) (Some sample_writer) ∅
    = Some r
    ∧ ret (ser_outcome r) = KAA_ERR_NOT_FOUND
    ∧ ser_writer r = Some sample_writer.
Proof.
  destruct (serialize_never_builds_empty_bucket
              (sample_collector 0 1024 (storage_of [])) sample_writer ∅)
    as (r & Hr & Hfirst & _).
  exists r. split; [exact Hr|].
  vm_compute in Hr. injection Hr as Hr.
  destruct (Hfirst 1008 1 KAA_ERR_NOT_FOUND 0 [])
    as (Hret & _ & Hw); [by rewrite <- Hr|by left|].
  by split.
Defined.

Lemma handle_server_sync_resolves_bucket_witness :
  log_storage (sample_collector 0 1024 marked_storage) = Some marked_storage
  ∧ (kaa_logging_handle_server_sync
       (Some (sample_collector 0 1024 marked_storage)) (Some ack_reader)
       (ack_message 0) 0 4).1
    = mk_outcome KAA_ERR_NONE
        (Some (sample_collector 0 1024 (storage_of [])))
        [call_remove_by_bucket_id 1; call_strategy_decide NO_ACTION].
Proof.
  split; [reflexivity|].
  destruct (handle_server_sync_resolves_bucket
              (sample_collector 0 1024 marked_storage) marked_storage
              ack_reader (ack_message 0) 0 4 eq_refl) as [_ Hack].
  destruct (Hack ltac:(lia)) as (s1 & ev & Hcase & -> & _).
  destruct Hcase as [(_ & -> & ->)|(Hres & _)].
  - reflexivity.
  - exfalso. apply Hres. reflexivity.
Defined.

Lemma serialize_header_round_trip_witness :
  ∃ r w',
    kaa_logging_request_serialize
      (Some (sample_collector 0 1024 three_records)) (Some sample_writer) ∅
    = Some r
    ∧ ser_writer r = Some w'
    ∧ load_ntohs (ser_mem r) 10 = 3
    ∧ load_ntohl (ser_mem r) 4 = 28
    ∧ w_current w' = 36.
Proof.
  eexists _, _. split; [vm_compute; reflexivity|].
  split; [reflexivity|].
  match goal with
  | |- load_ntohs (ser_mem ?r) _ = _ ∧ _ =>
    destruct (serialize_header_round_trip
                (sample_collector 0 1024 three_records) sample_writer
                (mk_writer 0 36 1024) ∅ r)
      as (Hcount & Hlen & _);
      [vm_compute; reflexivity|reflexivity|reflexivity|reflexivity
      |reflexivity|]
  end.
  split; [exact Hcount|]. split; [exact Hlen|reflexivity].
Defined.

Lemma server_sync_lacks_initialization_guard_witness :
  log_storage created_collector = None
  ∧ (kaa_logging_handle_server_sync (Some created_collector)
       (Some ack_reader) (ack_message 0) 0 4).1
    = mk_outcome KAA_ERR_NONE (Some created_collector)
        [call_remove_by_bucket_id 1; call_strategy_decide NO_ACTION]
  ∧ ret (kaa_logging_handle_server_sync (Some created_collector)
           (Some ack_reader) (ack_message 0) 0 4).1 = KAA_ERR_NONE.
Proof.
  split; [reflexivity|]. split; [reflexivity|].
  exact (proj1 (proj2 (proj2 (proj2
    (server_sync_lacks_initialization_guard (λ _, true) created_collector
       sample_entry 0 sample_writer ack_reader (ack_message 0) 0 4
       eq_refl))))).
Defined.

Lemma add_record_rejects_empty_record_witness :
  get_size empty_entry = 0
  ∧ kaa_logging_add_record (λ _, true)
      (Some (sample_collector 0 1024 three_records)) (Some empty_entry)
    = mk_outcome KAA_ERR_BADDATA
        (Some (sample_collector 0 1024 three_records)) [].
Proof.
  split; [reflexivity|].
  destruct (add_record_rejects_empty_record (λ _, true)
              (Some (sample_collector 0 1024 three_records)) empty_entry
              eq_refl) as (Hcalls & Hself & _ & Hret).
  specialize (Hret _ _ eq_refl eq_refl).
  destruct (kaa_logging_add_record _ _ _) as [e c l].
  simpl in *. by subst.
Defined.

Lemma add_record_failure_releases_buffer_witness :
  log_storage (sample_collector 0 1024 refusing_storage)
  = Some refusing_storage
  ∧ get_size sample_entry ≠ 0
  ∧ kaa_logging_add_record (λ _, true)
      (Some (sample_collector 0 1024 refusing_storage)) (Some sample_entry)
    = mk_outcome KAA_ERR_NOMEM
        (Some (sample_collector 0 1024 refusing_storage))
        [call_allocate_log_record_buffer 4;
         call_add_log_record [1; 2; 3; 4];
         call_deallocate_log_record_buffer].
Proof.
  split; [reflexivity|]. split; [discriminate|].
  destruct (add_record_failure_releases_buffer (λ _, true)
              (sample_collector 0 1024 refusing_storage) refusing_storage
              sample_entry eq_refl ltac:(discriminate)) as (_ & _ & Hadd).
  rewrite Hadd; [reflexivity|reflexivity|reflexivity|discriminate].
Defined.

Lemma request_size_estimate_witness :
  log_storage (sample_collector 0 1024 three_records) = Some three_records
  ∧ (kaa_logging_request_get_size
       (Some (sample_collector 0 1024 three_records)) (Some 0)).2
    = Some 45
  ∧ (kaa_logging_request_get_size
       (Some (sample_collector 0 1024 (storage_of []))) (Some 0)).2
    = Some 12.
Proof.
  split; [reflexivity|]. split.
  - destruct (request_size_estimate
                (sample_collector 0 1024 three_records) three_records 0
                eq_refl) as (_ & Hest & _);
      [vm_compute; discriminate|vm_compute; discriminate
      |vm_compute; discriminate|reflexivity|].
    exact Hest.
  - destruct (request_size_estimate
                (sample_collector 0 1024 (storage_of [])) (storage_of []) 0
                eq_refl) as (_ & _ & Hempty);
      [vm_compute; discriminate|vm_compute; discriminate
      |vm_compute; discriminate|reflexivity|].
    exact (Hempty eq_refl eq_refl).
Defined.

Lemma bucket_id_consumed_once_witness :
  log_storage (sample_collector 7 20 three_long_records)
  = Some three_long_records
  ∧ w_current sample_writer + KAA_EXTENSION_HEADER_SIZE <= w_end sample_writer
  ∧ seed_log_bucket_id (sample_collector 7 20 three_long_records)
    = (KAA_ERR_NONE, 7)
  ∧ ∃ r c',
      kaa_logging_request_serialize
        (Some (sample_collector 7 20 three_long_records))
        (Some sample_writer) ∅
      = Some r
      ∧ self_after (ser_outcome r) = Some c'
      ∧ log_bucket_id c' = 8.
Proof.
  split; [reflexivity|]. split; [vm_compute; discriminate|].
  split; [reflexivity|].
  destruct (bucket_id_consumed_once (λ _, true)
              (sample_collector 7 20 three_long_records)
              (sample_collector 7 20 three_long_records) three_long_records
              sample_writer ∅ ∅ 7 (Some sample_entry) (Some 0)
              (Some ack_reader) 0 4 (Some three_long_records)
              (Some sample_strategy) (Some (mk_properties 4096 12))
              eq_refl ltac:(vm_compute; discriminate) eq_refl)
    as ((r & c' & Hr & Hc & Hid & _) & _).
  exists r, c'. by split_and!.
Defined.

(** * Further properties of the collector *)

(** ** What a call writes, and where *)

Lemma load8_range (m : gmap Z Z) a : 0 <= load8 m a < 2 ^ 8.
Proof. unfold load8, uint8_t. apply Z.mod_pos_bound. lia. Qed.

(** A store leaves the bytes at lower addresses as they were. *)
Lemma load8_store_bytes_below data (m : gmap Z Z) p a :
  a < p -> load8 (store_bytes m p data) a = load8 m a.
Proof.
  revert m p. induction data as [|b data IH]; intros m p Ha; [done|].
  simpl. rewrite IH by lia. apply load8_store8_ne. lia.
Qed.

Lemma load8_store_zeros_below (m : gmap Z Z) p n a :
  a < p -> load8 (store_zeros m p n) a = load8 m a.
Proof. apply load8_store_bytes_below. Qed.

Lemma load8_store_htonl_other (m : gmap Z Z) p v a :
  a < p ∨ p + 3 < a -> load8 (store_htonl m p v) a = load8 m a.
Proof.
  intros Ha. unfold store_htonl. by rewrite !load8_store8_ne by lia.
Qed.

Lemma load8_store_htons_other (m : gmap Z Z) p v a :
  a < p ∨ p + 1 < a -> load8 (store_htons m p v) a = load8 m a.
Proof.
  intros Ha. unfold store_htons. by rewrite !load8_store8_ne by lia.
Qed.

Lemma load8_write_alignment_below w (m : gmap Z Z) a :
  a < w_current w ->
  load8 (kaa_platform_message_write_alignment w m).2 a = load8 m a.
Proof.
  intros Ha. unfold kaa_platform_message_write_alignment.
  destruct (_ <=? _); [|done]. simpl. by apply load8_store_zeros_below.
Qed.

Section FrameFacts.
Context {storage_t : Type} `{!ext_log_storage storage_t}.

(** The loop writes at its cursor and beyond, never before it, and leaves the
    bounds of the writer alone. *)
Lemma extract_records_frame fuel id (st : extraction) exit evs :
  extract_records fuel id st = Some (exit, evs) ->
  w_begin (ex_writer (exit_state exit)) = w_begin (ex_writer st)
  ∧ w_end (ex_writer (exit_state exit)) = w_end (ex_writer st)
  ∧ ∀ a, a < w_current (ex_writer st) ->
         load8 (ex_mem (exit_state exit)) a = load8 (ex_mem st) a.
Proof.
  revert st exit evs. induction fuel as [|fuel IH]; intros st exit evs; [done|].
  simpl.
  destruct (ext_log_storage_write_next_record _ _ _)
    as [[error data] s'] eqn:Hw.
  destruct error;
    try (destruct (_ =? 0));
    try (intros [= <- <-]; by split_and!).
  destruct (kaa_platform_message_write_alignment _ _) as [w2 m3] eqn:Hal.
  destruct (extract_records fuel id _) as [[ex rest]|] eqn:Hrec; [|done].
  intros [= <- <-]. apply IH in Hrec as (Hb & He & Hmem).
  pose proof Hal as Hpad.
  apply write_alignment_pad in Hpad as (pad & Hpad & Hc & Hb2 & He2).
  simpl in *. split_and!; [congruence|congruence|].
  intros a Ha. rewrite Hmem by (unfold sizeof_uint32_t in *; lia).
  change m3 with (w2, m3).2. rewrite <- Hal.
  rewrite load8_write_alignment_below
    by (simpl; unfold sizeof_uint32_t; lia).
  rewrite load8_store_htonl_other by lia.
  apply load8_store_bytes_below. unfold sizeof_uint32_t. lia.
Qed.

End FrameFacts.

Section AdvanceFacts.
Context {storage_t : Type} `{!ext_log_storage storage_t}.

(** A loop entered with no record packed and left by [break] has moved the
    cursor past one length prefix at least. *)
Lemma extract_records_break_advances fuel id (st st' : extraction) evs :
  extract_records fuel id st = Some (loop_break st', evs) ->
  ex_records_count st = 0 ->
  w_current (ex_writer st) + 4 <= w_current (ex_writer st').
Proof.
  destruct fuel as [|fuel]; [done|]. simpl.
  destruct (ext_log_storage_write_next_record _ _ _)
    as [[error data] s'] eqn:Hw.
  intros Hrun Hz. rewrite Hz in Hrun. simpl in Hrun.
  destruct error; try done.
  destruct (kaa_platform_message_write_alignment _ _) as [w2 m3] eqn:Hal.
  destruct (extract_records fuel id _) as [[ex rest]|] eqn:Hrec; [|done].
  injection Hrun as -> _.
  apply extract_records_cursor_mono in Hrec.
  apply write_alignment_pad in Hal as (pad & Hpad & Hc & _ & _).
  simpl in *. unfold sizeof_uint32_t in *. lia.
Qed.

End AdvanceFacts.

Section WriterFacts.
Context {storage_t strategy_t : Type}.
Context `{!ext_log_storage storage_t}.
Context `{!ext_log_upload_strategy strategy_t storage_t}.

(** X1.  [kaa_logging_request_serialize] hands the caller's writer back as
    it got it whenever it returns an error.  When it returns [KAA_ERR_NONE]
    the writer keeps its begin and its end, and its cursor is at least 8
    bytes past the extension header: bucket id, record count and one length
    prefix. *)
Theorem serialize_commits_writer_on_success
    (c : @kaa_log_collector_t storage_t strategy_t)
    (w : kaa_platform_message_writer_t) (m : gmap Z Z) :
  ∃ r, kaa_logging_request_serialize (Some c) (Some w) m = Some r
    ∧ (ret (ser_outcome r) ≠ KAA_ERR_NONE -> ser_writer r = Some w)
    ∧ (ret (ser_outcome r) = KAA_ERR_NONE ->
       ∃ w', ser_writer r = Some w'
         ∧ w_begin w' = w_begin w ∧ w_end w' = w_end w
         ∧ w_current w + KAA_EXTENSION_HEADER_SIZE + 8 <= w_current w').
Proof.
  destruct (log_storage c) as [s|] eqn:Hs.
  2:{ unfold kaa_logging_request_serialize. rewrite Hs.
      eexists. split; [done|]. by split. }
  destruct (serialize_cases c s w m Hs)
    as [[_ ->]|[_ (e & id0 & Hseed &
                   [[He (m' & ->)]|[-> (exit & evs & Hrun & ->)]])]];
    try (eexists; split; [done|]; by split).
  cbv zeta in Hrun. eexists. split; [done|].
  destruct exit as [st|err st]; simpl.
  - split; [done|]. intros _. exists (ex_writer st).
    destruct (extract_records_frame _ _ _ _ _ Hrun) as (Hb & He & _).
    apply extract_records_break_advances in Hrun; [|done].
    simpl in *. unfold KAA_EXTENSION_HEADER_SIZE, sizeof_uint16_t in *.
    split_and!; [done|done|done|lia].
  - split; [done|]. intros ->. by apply extract_records_return in Hrun.
Qed.

(** X2.  Whatever [kaa_logging_request_serialize] returns, the bytes of the
    message before the caller's cursor are as they were. *)
Theorem serialize_keeps_written_message
    (c : @kaa_log_collector_t storage_t strategy_t)
    (w : kaa_platform_message_writer_t) (m : gmap Z Z) :
  ∃ r, kaa_logging_request_serialize (Some c) (Some w) m = Some r
    ∧ ∀ a, a < w_current w -> load8 (ser_mem r) a = load8 m a.
Proof.
  destruct (log_storage c) as [s|] eqn:Hs.
  2:{ unfold kaa_logging_request_serialize. rewrite Hs. by eexists. }
  unfold kaa_logging_request_serialize. rewrite Hs.
  unfold kaa_platform_message_write_extension_header.
  destruct (_ <=? _) eqn:Hfit; simpl is_error; cbv iota; [|by eexists].
  destruct (seed_log_bucket_id c) as [e id0].
  assert (Hhdr : ∀ a, a < w_current w ->
    load8 (store_htonl
             (store_htonl m (w_current w)
                (KAA_LOGGING_EXTENSION_TYPE * 2 ^ 24
                 + KAA_LOGGING_RECEIVE_UPDATES_FLAG mod 2 ^ 24))
             (w_current w + 4) 0) a = load8 m a).
  { intros a Ha. by rewrite !load8_store_htonl_other by lia. }
  destruct (is_error e); [by eexists|].
  simpl w_begin. simpl w_current. simpl w_end.
  destruct (extract_records _ _ _) as [[[st|err st] evs]|] eqn:Hrun.
  - eexists. split; [done|]. simpl. intros a Ha.
    apply extract_records_frame in Hrun as (_ & _ & Hmem). simpl in Hmem.
    unfold KAA_EXTENSION_HEADER_SIZE, sizeof_uint16_t, sizeof_uint32_t in *.
    rewrite load8_store_htons_other, load8_store_htonl_other by lia.
    rewrite Hmem by lia. rewrite load8_store_htons_other by lia. by apply Hhdr.
  - eexists. split; [done|]. simpl. intros a Ha.
    apply extract_records_frame in Hrun as (_ & _ & Hmem). simpl in Hmem.
    unfold KAA_EXTENSION_HEADER_SIZE, sizeof_uint16_t, sizeof_uint32_t in *.
    rewrite Hmem by lia. rewrite load8_store_htons_other by lia. by apply Hhdr.
  - exfalso.
    match type of Hrun with
    | extract_records ?f ?i ?s = None =>
      destruct (extract_records_total f i s) as [x Hx]; [simpl; lia|]
    end.
    congruence.
Qed.

End WriterFacts.

(** ** The bucket id and the return value *)

(** A field read from two memories that agree on its bytes. *)
Lemma load_ntohs_ext (m1 m2 : gmap Z Z) p :
  load8 m1 p = load8 m2 p -> load8 m1 (p + 1) = load8 m2 (p + 1) ->
  load_ntohs m1 p = load_ntohs m2 p.
Proof. unfold load_ntohs. by intros -> ->. Qed.

Lemma load_ntohl_ext (m1 m2 : gmap Z Z) p :
  (∀ a, p <= a <= p + 3 -> load8 m1 a = load8 m2 a) ->
  load_ntohl m1 p = load_ntohl m2 p.
Proof.
  intros H. unfold load_ntohl. by rewrite !H by lia.
Qed.

Section AttemptFacts.
Context {storage_t : Type} `{!ext_log_storage storage_t}.

(** The attempts of the loop: successes, then one failure that ends it. *)
Lemma extract_records_shape fuel id (st : extraction) exit evs :
  extract_records fuel id st = Some (exit, evs) ->
  ∃ oks bl e,
    evs = oks ++ [call_write_next_record bl id e 0]
    ∧ Forall (λ c, is_extraction c = true) oks
    ∧ e ≠ KAA_ERR_NONE
    ∧ match exit with
      | loop_return e' _ => e' = e
      | loop_break _ =>
        e = KAA_ERR_NOT_FOUND ∨ e = KAA_ERR_INSUFFICIENT_BUFFER
      end.
Proof.
  revert st exit evs. induction fuel as [|fuel IH]; intros st exit evs; [done|].
  simpl.
  destruct (ext_log_storage_write_next_record _ _ _)
    as [[error data] s'] eqn:Hw.
  destruct error;
    try (destruct (_ =? 0));
    try (intros [= <- <-]; eexists [], _, _; split_and!;
         [done|constructor|done|by eauto]).
  destruct (kaa_platform_message_write_alignment _ _) as [w2 m3] eqn:Hal.
  destruct (extract_records fuel id _) as [[ex rest]|] eqn:Hrec; [|done].
  intros [= <- <-].
  apply IH in Hrec as (oks & bl & e & -> & Hoks & He & Hexit).
  eexists (_ :: oks), bl, e. split_and!; [done| |done|done].
  by constructor.
Qed.

(** A benign code is returned from inside the loop only with a
    [records_count] of zero. *)
Lemma extract_records_benign_return fuel id (st st' : extraction) e evs :
  extract_records fuel id st = Some (loop_return e st', evs) ->
  e = KAA_ERR_NOT_FOUND ∨ e = KAA_ERR_INSUFFICIENT_BUFFER ->
  ex_records_count st' = 0.
Proof.
  revert st st' evs. induction fuel as [|fuel IH]; intros st st' evs; [done|].
  simpl.
  destruct (ext_log_storage_write_next_record _ _ _)
    as [[error data] s'] eqn:Hw.
  destruct error;
    try (destruct (_ =? 0) eqn:Hz);
    try (intros [= <- <-] [?|?]; simpl; (done || lia)); try done.
  destruct (kaa_platform_message_write_alignment _ _) as [w2 m3] eqn:Hal.
  destruct (extract_records fuel id _) as [[ex rest]|] eqn:Hrec; [|done].
  intros [= -> <-] He. by eapply IH.
Qed.

(** The first attempt is offered [remaining_size - sizeof(uint32_t)] as a
    [size_t]. *)
Lemma extract_records_first_call fuel id (st : extraction) exit evs :
  extract_records fuel id st = Some (exit, evs) ->
  ∃ e n rest,
    evs = call_write_next_record
            (size_t (ex_remaining_size st - sizeof_uint32_t)) id e n :: rest.
Proof.
  destruct fuel as [|fuel]; [done|]. simpl.
  destruct (ext_log_storage_write_next_record _ _ _)
    as [[error data] s'] eqn:Hw.
  destruct error;
    try (destruct (_ =? 0));
    try (intros [= <- <-]; by eauto).
  destruct (kaa_platform_message_write_alignment _ _) as [w2 m3] eqn:Hal.
  destruct (extract_records fuel id _) as [[ex rest]|] eqn:Hrec; [|done].
  intros [= <- <-]. eauto.
Qed.

End AttemptFacts.

Section BucketIdFacts.
Context {storage_t strategy_t : Type}.
Context `{!ext_log_storage storage_t}.
Context `{!ext_log_upload_strategy strategy_t storage_t}.

(** The bucket id of a successful call, in the collector and on the wire. *)
Lemma serialize_success_bucket_id
    (c : @kaa_log_collector_t storage_t strategy_t)
    (w : kaa_platform_message_writer_t) (m : gmap Z Z) r :
  kaa_logging_request_serialize (Some c) (Some w) m = Some r ->
  ret (ser_outcome r) = KAA_ERR_NONE ->
  ∃ c' id0,
    seed_log_bucket_id c = (KAA_ERR_NONE, id0)
    ∧ self_after (ser_outcome r) = Some c'
    ∧ log_bucket_id c' = uint16_t (id0 + 1)
    ∧ load_ntohs (ser_mem r) (w_current w + KAA_EXTENSION_HEADER_SIZE)
      = log_bucket_id c'.
Proof.
  destruct (log_storage c) as [s|] eqn:Hs.
  2:{ unfold kaa_logging_request_serialize. rewrite Hs. by intros [= <-]. }
  destruct (serialize_cases c s w m Hs)
    as [[_ ->]|[_ (e & id0 & Hseed &
                   [[He (m' & ->)]|[-> (exit & evs & Hrun & ->)]])]];
    try by intros [= <-].
  cbv zeta in Hrun. intros [= <-].
  destruct exit as [st|err st]; simpl.
  2:{ intros ->. by apply extract_records_return in Hrun. }
  intros _. eexists _, id0. split_and!; [done|done|done|].
  apply extract_records_frame in Hrun as (_ & _ & Hmem). simpl in Hmem.
  unfold KAA_EXTENSION_HEADER_SIZE, sizeof_uint16_t, sizeof_uint32_t in *.
  simpl log_bucket_id.
  rewrite <- (uint16_t_small (uint16_t (id0 + 1))) by apply uint16_t_range.
  rewrite <- (load_ntohs_store_htons
                (store_htonl
                   (store_htonl m (w_current w)
                      (KAA_LOGGING_EXTENSION_TYPE * 2 ^ 24
                       + KAA_LOGGING_RECEIVE_UPDATES_FLAG mod 2 ^ 24))
                   (w_current w + 4) 0)
                (w_current w + 8) (uint16_t (id0 + 1))).
  apply load_ntohs_ext;
    rewrite load8_store_htons_other, load8_store_htonl_other by lia;
    by rewrite Hmem by lia.
Qed.

(** X3.  In a call that returns [KAA_ERR_NONE] the bucket id on the wire, the
    16-bit big-endian value after the extension header, is the counter of
    the collector after the call: the seeded id plus one modulo 2^16. *)
Theorem serialize_bucket_id_on_wire
    (c : @kaa_log_collector_t storage_t strategy_t)
    (w : kaa_platform_message_writer_t) (m : gmap Z Z) :
  ∃ r, kaa_logging_request_serialize (Some c) (Some w) m = Some r
    ∧ (ret (ser_outcome r) = KAA_ERR_NONE ->
       ∃ c' id0,
         seed_log_bucket_id c = (KAA_ERR_NONE, id0)
         ∧ self_after (ser_outcome r) = Some c'
         ∧ log_bucket_id c' = uint16_t (id0 + 1)
         ∧ load_ntohs (ser_mem r) (w_current w + KAA_EXTENSION_HEADER_SIZE)
           = log_bucket_id c').
Proof.
  destruct (serialize_returns (Some c) (Some w) m) as [r Hr].
  exists r. split; [done|]. by apply (serialize_success_bucket_id c w m r).
Qed.

(** X9.  Create, initialise, build a bucket: with a status holding the seed
    and room for the extension header, the first call of
    [kaa_logging_request_serialize] ends with the counter at seed + 1 modulo
    2^16, makes all its extraction attempts with that id, and when it
    returns [KAA_ERR_NONE] has put that id on the wire. *)
Theorem first_bucket_id_after_init
    (st : kaa_status_t) (cm : option kaa_channel_manager_t)
    (storage : storage_t) (strategy : strategy_t)
    (properties : kaa_log_upload_properties_t)
    (w : kaa_platform_message_writer_t) (m : gmap Z Z) :
  w_current w + KAA_EXTENSION_HEADER_SIZE <= w_end w ->
  ∃ c0 c r c',
    self_after (kaa_log_collector_create (Some ()) true (Some st) cm)
    = Some c0
    ∧ self_after
        (kaa_logging_init (Some c0) (Some storage) (Some strategy)
           (Some properties)) = Some c
    ∧ kaa_logging_request_serialize (Some c) (Some w) m = Some r
    ∧ self_after (ser_outcome r) = Some c'
    ∧ log_bucket_id c' = uint16_t (status_log_bucket_id st + 1)
    ∧ Forall
        (λ ev, bucket_id_of ev
               = Some (uint16_t (status_log_bucket_id st + 1)))
        (calls (ser_outcome r))
    ∧ (ret (ser_outcome r) = KAA_ERR_NONE ->
       load_ntohs (ser_mem r) (w_current w + KAA_EXTENSION_HEADER_SIZE)
       = uint16_t (status_log_bucket_id st + 1)).
Proof.
  intros Hfit. eexists _, _. simpl.
  set (c := mk_collector 0 (Some storage) (Some strategy) properties
              (Some st) cm).
  assert (Hid : uint16_t (uint16_t (status_log_bucket_id st) + 1)
                = uint16_t (status_log_bucket_id st + 1)).
  { unfold uint16_t. by rewrite Zplus_mod_idemp_l. }
  assert (Hseed : seed_log_bucket_id c
                  = (KAA_ERR_NONE, uint16_t (status_log_bucket_id st)))
    by reflexivity.
  destruct (serialize_cases c storage w m eq_refl)
    as [[? _]|[_ (e & id1 & Hseed' &
                  [[He _]|[-> (exit & evs & Hrun & Hser)]])]];
    [lia|congruence|].
  rewrite Hseed in Hseed'. injection Hseed' as <-. cbv zeta in Hrun, Hser.
  rewrite Hid in Hrun, Hser.
  apply extract_records_bucket_id in Hrun as [Hids _].
  assert (Hwire : ∀ r,
    kaa_logging_request_serialize (Some c) (Some w) m = Some r ->
    ret (ser_outcome r) = KAA_ERR_NONE ->
    load_ntohs (ser_mem r) (w_current w + KAA_EXTENSION_HEADER_SIZE)
    = uint16_t (status_log_bucket_id st + 1)).
  { intros r Hr Hret.
    destruct (serialize_success_bucket_id c w m r Hr Hret)
      as (c' & id0 & Hs0 & Hc' & Hid0 & Hw).
    rewrite Hseed in Hs0. injection Hs0 as <-.
    rewrite Hw, Hid0. exact Hid. }
  destruct exit; eexists _, _;
    (split_and!; [done|done|exact Hser|done|done|done|by apply Hwire]).
Qed.

End BucketIdFacts.

Section ReturnFacts.
Context {storage_t strategy_t : Type}.
Context `{!ext_log_storage storage_t}.
Context `{!ext_log_upload_strategy strategy_t storage_t}.

(** X5.  The return values of [kaa_logging_request_serialize].  Either no
    call was made to the storage and the result is
    [KAA_ERR_NOT_INITIALIZED], [KAA_ERR_WRITE_FAILED] or [KAA_ERR_BAD_STATE];
    or the extraction attempts are a run of successes ended by one failure,
    and the result is the error of that failure, unchanged, or
    [KAA_ERR_NONE] when that error is [KAA_ERR_NOT_FOUND] or
    [KAA_ERR_INSUFFICIENT_BUFFER]. *)
Theorem serialize_stops_at_first_failure
    (c : @kaa_log_collector_t storage_t strategy_t)
    (w : kaa_platform_message_writer_t) (m : gmap Z Z) :
  ∃ r, kaa_logging_request_serialize (Some c) (Some w) m = Some r
    ∧ ((calls (ser_outcome r) = []
        ∧ (ret (ser_outcome r) = KAA_ERR_NOT_INITIALIZED
           ∨ ret (ser_outcome r) = KAA_ERR_WRITE_FAILED
           ∨ ret (ser_outcome r) = KAA_ERR_BAD_STATE))
       ∨ ∃ oks buffer_len id e,
           calls (ser_outcome r)
           = oks ++ [call_write_next_record buffer_len id e 0]
           ∧ Forall (λ c, is_extraction c = true) oks
           ∧ e ≠ KAA_ERR_NONE
           ∧ (ret (ser_outcome r) = e
              ∨ ret (ser_outcome r) = KAA_ERR_NONE
                ∧ (e = KAA_ERR_NOT_FOUND
                   ∨ e = KAA_ERR_INSUFFICIENT_BUFFER))).
Proof.
  destruct (log_storage c) as [s|] eqn:Hs.
  2:{ unfold kaa_logging_request_serialize. rewrite Hs.
      eexists. split; [done|]. left. simpl. eauto. }
  destruct (serialize_cases c s w m Hs)
    as [[_ ->]|[_ (e & id0 & Hseed &
                   [[He (m' & ->)]|[-> (exit & evs & Hrun & ->)]])]];
    try (eexists; split; [done|]; left; simpl; by eauto).
  cbv zeta in Hrun. eexists. split; [done|]. right.
  apply extract_records_shape in Hrun as (oks & bl & e & -> & Hoks & He & Hex).
  exists oks, bl, (uint16_t (id0 + 1)), e.
  destruct exit as [st|err st]; simpl; split_and!; try done.
  - by right.
  - by left.
Qed.

(** X6.  [KAA_ERR_NOT_FOUND] and [KAA_ERR_INSUFFICIENT_BUFFER] are returned
    by [kaa_logging_request_serialize] only when the number of records
    packed is zero modulo 2^16, and [KAA_ERR_NONE] only when it is not: the
    test is on the 16-bit [records_count]. *)
Theorem serialize_benign_end_iff_count_zero
    (c : @kaa_log_collector_t storage_t strategy_t)
    (w : kaa_platform_message_writer_t) (m : gmap Z Z) :
  ∃ r, kaa_logging_request_serialize (Some c) (Some w) m = Some r
    ∧ let packed := Z.of_nat (length (extracted (calls (ser_outcome r)))) in
      (ret (ser_outcome r) = KAA_ERR_NOT_FOUND
       ∨ ret (ser_outcome r) = KAA_ERR_INSUFFICIENT_BUFFER ->
       packed mod 2 ^ 16 = 0)
      ∧ (ret (ser_outcome r) = KAA_ERR_NONE -> packed mod 2 ^ 16 ≠ 0).
Proof.
  destruct (log_storage c) as [s|] eqn:Hs.
  2:{ unfold kaa_logging_request_serialize. rewrite Hs.
      eexists. split; [done|]. simpl. split; [by intros [?|?]|done]. }
  destruct (serialize_cases c s w m Hs)
    as [[_ ->]|[_ (e & id0 & Hseed &
                   [[He (m' & ->)]|[-> (exit & evs & Hrun & ->)]])]];
    try (eexists; split; [done|]; simpl; split; [by intros [?|?]|done]).
  cbv zeta in Hrun. eexists. split; [done|].
  pose proof (extract_records_count _ _ _ _ _ Hrun) as Hcount.
  simpl in Hcount. specialize (Hcount ltac:(lia)). unfold uint16_t in Hcount.
  rewrite Z.add_0_l in Hcount.
  destruct exit as [st|err st]; simpl.
  - split; [by intros [?|?]|]. intros _.
    apply extract_records_break in Hrun. simpl in Hcount. congruence.
  - split.
    + intros Hben. eapply extract_records_benign_return in Hrun; [|done].
      simpl in Hcount. congruence.
    + intros ->. by apply extract_records_return in Hrun.
Qed.

(** X7.  The bucket id and the record count are written without a look at
    the end of the buffer, and the room left is compared as a [size_t]: when
    the extension header fits and fewer than 4 bytes follow it, the first
    extraction attempt is offered [max_log_bucket_size - 4] bytes, though
    the buffer has none left. *)
Theorem serialize_room_is_not_clamped
    (c : @kaa_log_collector_t storage_t strategy_t) (s : storage_t)
    (w : kaa_platform_message_writer_t) (m : gmap Z Z) (id0 : Z) :
  log_storage c = Some s ->
  seed_log_bucket_id c = (KAA_ERR_NONE, id0) ->
  w_current w + KAA_EXTENSION_HEADER_SIZE <= w_end w ->
  w_end w < w_current w + KAA_EXTENSION_HEADER_SIZE + 4 ->
  4 <= max_log_bucket_size (log_properties c) < 2 ^ 63 ->
  ∃ r e n rest,
    kaa_logging_request_serialize (Some c) (Some w) m = Some r
    ∧ calls (ser_outcome r)
      = call_write_next_record
          (max_log_bucket_size (log_properties c) - 4)
          (uint16_t (id0 + 1)) e n :: rest.
Proof.
  intros Hs Hseed Hfit Hshort Hbucket.
  destruct (serialize_cases c s w m Hs)
    as [[? _]|[_ (e & id1 & Hseed' &
                  [[He _]|[-> (exit & evs & Hrun & ->)]])]];
    [lia|congruence|].
  rewrite Hseed in Hseed'. injection Hseed' as <-. cbv zeta in Hrun.
  apply extract_records_first_call in Hrun as (e & n & rest & ->).
  assert (Hbudget :
    size_t (ex_remaining_size
              (bucket_start c s w m (uint16_t (id0 + 1))) - sizeof_uint32_t)
    = max_log_bucket_size (log_properties c) - 4).
  { unfold bucket_start, bucket_budget. simpl.
    unfold KAA_EXTENSION_HEADER_SIZE, sizeof_uint16_t, sizeof_uint32_t in *.
    assert (H63 : 2 ^ 63 = 9223372036854775808) by reflexivity.
    assert (H64 : 2 ^ 64 = 18446744073709551616) by reflexivity.
    set (room := w_end w - (w_current w + 8 + 2 + 2)).
    assert (Hroom : size_t room = room + 2 ^ 64).
    { unfold size_t. symmetry. apply Z.mod_unique_pos with (q := -1).
      - subst room. lia.
      - lia. }
    rewrite Hroom.
    set (bucket := max_log_bucket_size (log_properties c)) in *.
    assert (Hlt : (bucket <? room + 2 ^ 64) = true)
      by (apply Z.ltb_lt; subst room; lia).
    rewrite Hlt. unfold ssize_t. rewrite (size_t_small bucket) by lia.
    assert (Hlt2 : (bucket <? 2 ^ 63) = true) by (apply Z.ltb_lt; lia).
    rewrite Hlt2.
    apply size_t_small. lia. }
  rewrite Hbudget.
  destruct exit; eexists _, e, n, rest; by split.
Qed.

End ReturnFacts.

(** ** Reading the records back *)

Lemma load_ntohl_nonneg (m : gmap Z Z) p : 0 <= load_ntohl m p.
Proof.
  unfold load_ntohl.
  pose proof (load8_range m p). pose proof (load8_range m (p + 1)).
  pose proof (load8_range m (p + 2)). pose proof (load8_range m (p + 3)).
  lia.
Qed.

Lemma kaa_aligned_size_get_ge size : size <= kaa_aligned_size_get size.
Proof.
  unfold kaa_aligned_size_get, KAA_ALIGNMENT.
  pose proof (Z.mod_pos_bound (4 - size mod 4) 4). lia.
Qed.

(** The reader looks at no byte before the address it starts from. *)
Lemma decode_record_lens_ext n (m1 m2 : gmap Z Z) p :
  (∀ a, p <= a -> load8 m1 a = load8 m2 a) ->
  decode_record_lens m1 p n = decode_record_lens m2 p n.
Proof.
  revert p. induction n as [|n IH]; intros p Hagree; [done|].
  simpl. rewrite (load_ntohl_ext m1 m2 p) by (intros; apply Hagree; lia).
  f_equal. apply IH. intros a Ha. apply Hagree.
  pose proof (load_ntohl_nonneg m2 p).
  pose proof (kaa_aligned_size_get_ge (load_ntohl m2 p)).
  unfold sizeof_uint32_t in *. lia.
Qed.

Section DecodeLoopFacts.
Context {storage_t : Type} `{!ext_log_storage storage_t}.

(** The records the loop packs, read back from where the loop started: from
    a cursor on a 4-byte boundary, when every padding fits before [end] and
    every length fits its prefix. *)
Lemma extract_records_decode fuel id (st : extraction) exit evs :
  extract_records fuel id st = Some (exit, evs) ->
  (w_current (ex_writer st) - w_begin (ex_writer st)) mod 4 = 0 ->
  w_current (ex_writer (exit_state exit)) + 3 <= w_end (ex_writer st) ->
  w_current (ex_writer (exit_state exit)) - w_current (ex_writer st)
    < 2 ^ 32 ->
  decode_record_lens (ex_mem (exit_state exit)) (w_current (ex_writer st))
    (length (record_lens evs))
  = record_lens evs.
Proof.
  revert st exit evs. induction fuel as [|fuel IH]; intros st exit evs; [done|].
  simpl.
  destruct (ext_log_storage_write_next_record _ _ _)
    as [[error data] s'] eqn:Hw.
  destruct error;
    try (destruct (_ =? 0));
    try (intros [= <- <-]; done).
  unfold kaa_platform_message_write_alignment. simpl w_current. simpl w_begin.
  simpl w_end. unfold KAA_ALIGNMENT, sizeof_uint32_t.
  set (cur := w_current (ex_writer st)).
  set (len := Z.of_nat (length data)).
  set (pad := (4 - (cur + (4 + len) - w_begin (ex_writer st)) mod 4) mod 4).
  intros Hrun Halign Hroom Hsmall.
  assert (Hpad : pad = kaa_aligned_size_get len - len).
  { unfold kaa_aligned_size_get, KAA_ALIGNMENT. subst pad.
    replace (cur + (4 + len) - w_begin (ex_writer st))
      with (len + (cur - w_begin (ex_writer st) + 1 * 4)) by lia.
    rewrite Z.add_mod by lia. rewrite Z.mod_add by lia.
    rewrite Halign, Z.add_0_r, Z.mod_mod by lia. lia. }
  assert (Hpad_range : 0 <= pad < 4) by (apply Z.mod_pos_bound; lia).
  assert (Hlen : 0 <= len) by (subst len; lia).
  destruct (cur + (4 + len) + pad <=? w_end (ex_writer st)) eqn:Hfit.
  2:{ exfalso. apply Z.leb_gt in Hfit.
      destruct (extract_records fuel id _) as [[ex rest]|] eqn:Hrec; [|done].
      injection Hrun as <- <-.
      apply extract_records_cursor_mono in Hrec. simpl in Hrec, Hroom.
      fold cur in Hrec. lia. }
  destruct (extract_records fuel id _) as [[ex rest]|] eqn:Hrec; [|done].
  injection Hrun as <- <-.
  pose proof (extract_records_cursor_mono _ _ _ _ _ Hrec) as Hmono.
  pose proof (extract_records_frame _ _ _ _ _ Hrec) as (_ & He & Hmem).
  simpl in Hmono, He, Hmem.
  unfold record_lens. rewrite extracted_cons_success.
  cbn [fmap list_fmap length decode_record_lens record_len_of].
  fold len.
  assert (Hhead : load_ntohl (ex_mem (exit_state ex)) cur = len).
  { rewrite (load_ntohl_ext _
               (store_htonl
                  (store_bytes (ex_mem st) (cur + 4) data) cur len) cur).
    - rewrite load_ntohl_store_htonl. apply uint32_t_small. lia.
    - intros a Ha. rewrite Hmem by lia.
      apply load8_store_zeros_below. lia. }
  rewrite Hhead. f_equal.
  unfold sizeof_uint32_t.
  replace (cur + 4 + kaa_aligned_size_get len) with (cur + (4 + len) + pad)
    by lia.
  apply (IH _ _ _ Hrec); simpl.
  - replace (cur + (4 + len) + pad - w_begin (ex_writer st))
      with (cur - w_begin (ex_writer st) + (1 + (len + pad) / 4) * 4).
    + by rewrite Z.mod_add by lia.
    + assert (Hdiv : (len + pad) mod 4 = 0).
      { rewrite Hpad. replace (len + (kaa_aligned_size_get len - len))
          with (kaa_aligned_size_get len) by lia.
        unfold kaa_aligned_size_get, KAA_ALIGNMENT.
        rewrite Z.add_mod_idemp_r by lia.
        replace (len + (4 - len mod 4)) with (len - len mod 4 + 1 * 4) by lia.
        rewrite Z.mod_add by lia.
        rewrite Zminus_mod_idemp_r. by rewrite Z.sub_diag. }
      pose proof (Z.div_mod (len + pad) 4 ltac:(lia)). lia.
  - lia.
  - lia.
Qed.

End DecodeLoopFacts.

Section DecodeFacts.
Context {storage_t strategy_t : Type}.
Context `{!ext_log_storage storage_t}.
Context `{!ext_log_upload_strategy strategy_t storage_t}.

(** X4.  Round trip of the record lengths.  After a call that returns
    [KAA_ERR_NONE], on a writer whose cursor was on a 4-byte boundary of the
    message, with 3 bytes to spare before the end of the buffer and a bucket
    shorter than 2^32 bytes: reading the length prefixes back, from the byte
    after the count field and skipping each payload and its padding, gives
    the lengths of the records packed, in order. *)
Theorem serialize_record_lengths_round_trip
    (c : @kaa_log_collector_t storage_t strategy_t)
    (w w' : kaa_platform_message_writer_t) (m : gmap Z Z) r :
  kaa_logging_request_serialize (Some c) (Some w) m = Some r ->
  ret (ser_outcome r) = KAA_ERR_NONE ->
  ser_writer r = Some w' ->
  (w_current w - w_begin w) mod 4 = 0 ->
  w_current w' + 3 <= w_end w ->
  w_current w' - w_current w < 2 ^ 32 ->
  decode_record_lens (ser_mem r)
    (w_current w + KAA_EXTENSION_HEADER_SIZE + sizeof_uint16_t
     + sizeof_uint16_t)
    (length (record_lens (calls (ser_outcome r))))
  = record_lens (calls (ser_outcome r)).
Proof.
  destruct (log_storage c) as [s|] eqn:Hs.
  2:{ unfold kaa_logging_request_serialize. rewrite Hs. by intros [= <-]. }
  destruct (serialize_cases c s w m Hs)
    as [[_ ->]|[_ (e & id0 & Hseed &
                   [[He (m' & ->)]|[-> (exit & evs & Hrun & ->)]])]];
    try by intros [= <-].
  cbv zeta in Hrun. intros [= <-].
  destruct exit as [st|err st]; simpl.
  2:{ intros ->. by apply extract_records_return in Hrun. }
  intros _ [= <-] Halign Hroom Hsmall.
  unfold KAA_EXTENSION_HEADER_SIZE, sizeof_uint16_t, sizeof_uint32_t in *.
  rewrite (decode_record_lens_ext _ _ (ex_mem st)).
  - apply (extract_records_decode _ _ _ _ _ Hrun); simpl.
    + unfold KAA_EXTENSION_HEADER_SIZE, sizeof_uint16_t.
      replace (w_current w + 8 + 2 + 2 - w_begin w)
        with (w_current w - w_begin w + 3 * 4) by lia.
      by rewrite Z.mod_add by lia.
    + done.
    + unfold KAA_EXTENSION_HEADER_SIZE, sizeof_uint16_t. lia.
  - intros a Ha.
    by rewrite load8_store_htons_other, load8_store_htonl_other by lia.
Qed.

End DecodeFacts.

(** ** The budget *)

Lemma kaa_aligned_size_get_fits len room :
  0 <= len <= room -> room mod 4 = 0 ->
  kaa_aligned_size_get len <= room ∧ kaa_aligned_size_get len mod 4 = 0.
Proof.
  unfold kaa_aligned_size_get, KAA_ALIGNMENT. intros Hlen Hroom.
  Z.div_mod_to_equations. lia.
Qed.

(** The reference storage keeps to the length it is given. *)
Lemma memory_storage_honours_buffer_len :
  storage_honours_buffer_len memory_log_storage.
Proof.
  intros s buffer_len bucket_id data s'. simpl.
  unfold memory_write_next_record.
  destruct (pending_records s) as [|r rest]; [done|].
  destruct (_ <=? _) eqn:Hle; [|done]. intros [= <- _].
  by apply Z.leb_le.
Qed.

Lemma sum_list_cons x l : sum_list (x :: l) = x + sum_list l.
Proof. reflexivity. Qed.

Section BudgetLoopFacts.
Context {storage_t : Type} `{!ext_log_storage storage_t}.

(** With a storage that keeps to the length it is given, and a
    [remaining_size] that is a multiple of 4 and not negative: what the loop
    charges stays within [remaining_size], unless some of the records, with
    more to follow, brought it to zero exactly. *)
Lemma extract_records_budget fuel id (st : extraction) exit evs :
  storage_honours_buffer_len storage_t ->
  extract_records fuel id st = Some (exit, evs) ->
  0 <= ex_remaining_size st < 2 ^ 63 ->
  ex_remaining_size st mod 4 = 0 ->
  sum_list (charged_size <$> record_lens evs) <= ex_remaining_size st
  ∨ ∃ k, (k < length (record_lens evs))%nat
         ∧ sum_list (charged_size <$> take k (record_lens evs))
           = ex_remaining_size st.
Proof.
  intros Hhon. revert st exit evs.
  assert (H63 : 2 ^ 63 = 9223372036854775808) by reflexivity.
  assert (H64 : 2 ^ 64 = 18446744073709551616) by reflexivity.
  induction fuel as [|fuel IH]; intros st exit evs; [done|].
  simpl.
  destruct (ext_log_storage_write_next_record _ _ _)
    as [[error data] s'] eqn:Hw.
  destruct error;
    try (destruct (_ =? 0));
    try (intros [= <- <-] Hr _; left; simpl; lia).
  destruct (kaa_platform_message_write_alignment _ _) as [w2 m3] eqn:Hal.
  destruct (extract_records fuel id _) as [[ex rest]|] eqn:Hrec; [|done].
  intros [= <- <-] Hr Hmod.
  unfold record_lens. rewrite extracted_cons_success, !fmap_cons.
  cbn [record_len_of length].
  set (len := Z.of_nat (length data)) in *.
  destruct (Z.eq_dec (ex_remaining_size st) 0) as [Hz|Hnz].
  { right. exists 0%nat. split; [lia|]. by rewrite Hz. }
  assert (Hge : 4 <= ex_remaining_size st).
  { revert Hmod Hr Hnz. generalize (ex_remaining_size st). intros z.
    Z.div_mod_to_equations. lia. }
  apply Hhon in Hw. unfold sizeof_uint32_t in Hw.
  rewrite size_t_small in Hw by lia. fold len in Hw.
  destruct (kaa_aligned_size_get_fits len (ex_remaining_size st - 4))
    as [Hfit Halign].
  { subst len. lia. }
  { revert Hmod. generalize (ex_remaining_size st). intros z.
    Z.div_mod_to_equations. lia. }
  assert (Hrest :
    ssize_t (ex_remaining_size st
             - (kaa_aligned_size_get len + sizeof_uint32_t))
    = ex_remaining_size st - charged_size len).
  { unfold charged_size, ssize_t, sizeof_uint32_t.
    pose proof (kaa_aligned_size_get_ge len).
    rewrite size_t_small by (subst len; lia).
    destruct (_ <? _) eqn:Hlt; [done|]. apply Z.ltb_ge in Hlt.
    subst len. lia. }
  rewrite Hrest in Hrec.
  apply IH in Hrec.
  - unfold record_lens in Hrec. cbn [ex_remaining_size] in Hrec.
    destruct Hrec as [Hle|(k & Hk & Hsum)].
    + left. rewrite sum_list_cons. lia.
    + right. exists (S k). split; [lia|].
      rewrite firstn_cons, fmap_cons, sum_list_cons. lia.
  - simpl. unfold charged_size, sizeof_uint32_t.
    pose proof (kaa_aligned_size_get_ge len). subst len. lia.
  - simpl. unfold charged_size, sizeof_uint32_t. revert Halign Hmod.
    generalize (kaa_aligned_size_get len) (ex_remaining_size st).
    intros a z. Z.div_mod_to_equations. lia.
Qed.

End BudgetLoopFacts.

Lemma ssize_t_range z : - 2 ^ 63 <= ssize_t z < 2 ^ 63.
Proof.
  unfold ssize_t, size_t.
  assert (H63 : 2 ^ 63 = 9223372036854775808) by reflexivity.
  assert (H64 : 2 ^ 64 = 18446744073709551616) by reflexivity.
  pose proof (Z.mod_pos_bound z (2 ^ 64) ltac:(lia)).
  destruct (_ <? _) eqn:Hlt; [apply Z.ltb_lt in Hlt|apply Z.ltb_ge in Hlt];
    lia.
Qed.

Lemma kaa_aligned_size_get_mod4 len : kaa_aligned_size_get len mod 4 = 0.
Proof.
  unfold kaa_aligned_size_get, KAA_ALIGNMENT. Z.div_mod_to_equations. lia.
Qed.

Lemma aligned_step x a : x mod 4 = 0 -> a mod 4 = 0 -> (x + 4 + a) mod 4 = 0.
Proof. intros Hx Ha. Z.div_mod_to_equations. lia. Qed.

Section WrittenFacts.
Context {storage_t : Type} `{!ext_log_storage storage_t}.

(** From a cursor on a 4-byte boundary of the message, or with less than 3
    bytes left before [end], the bytes written for the records are at most
    what is charged to the budget. *)
Lemma extract_records_written fuel id (st : extraction) exit evs :
  extract_records fuel id st = Some (exit, evs) ->
  (w_current (ex_writer st) - w_begin (ex_writer st)) mod 4 = 0
  ∨ w_end (ex_writer st) < w_current (ex_writer st) + 3 ->
  w_current (ex_writer (exit_state exit)) - w_current (ex_writer st)
  <= sum_list (charged_size <$> record_lens evs).
Proof.
  revert st exit evs. induction fuel as [|fuel IH]; intros st exit evs; [done|].
  simpl.
  destruct (ext_log_storage_write_next_record _ _ _)
    as [[error data] s'] eqn:Hw.
  destruct error;
    try (destruct (_ =? 0));
    try (intros [= <- <-] _; simpl; lia).
  unfold kaa_platform_message_write_alignment. simpl w_current. simpl w_begin.
  simpl w_end. unfold KAA_ALIGNMENT, sizeof_uint32_t.
  set (cur := w_current (ex_writer st)).
  set (len := Z.of_nat (length data)).
  set (pad := (4 - (cur + (4 + len) - w_begin (ex_writer st)) mod 4) mod 4).
  intros Hrun Hinv.
  assert (Hpad_range : 0 <= pad < 4) by (apply Z.mod_pos_bound; lia).
  assert (Hlen : 0 <= len) by (subst len; lia).
  pose proof (kaa_aligned_size_get_ge len) as Hge.
  assert (Hsum : ∀ bl rest,
    sum_list (charged_size <$>
                record_lens
                  (call_write_next_record bl id KAA_ERR_NONE len :: rest))
    = kaa_aligned_size_get len + 4
      + sum_list (charged_size <$> record_lens rest)).
  { intros bl rest. unfold record_lens.
    by rewrite extracted_cons_success, !fmap_cons, sum_list_cons. }
  destruct (cur + (4 + len) + pad <=? w_end (ex_writer st)) eqn:Hfit.
  - apply Z.leb_le in Hfit.
    destruct (extract_records fuel id _) as [[ex rest]|] eqn:Hrec; [|done].
    injection Hrun as <- <-. rewrite Hsum.
    destruct Hinv as [Halign|Hend]; [|lia].
    assert (Hpad : pad = kaa_aligned_size_get len - len).
    { unfold kaa_aligned_size_get, KAA_ALIGNMENT. subst pad.
      replace (cur + (4 + len) - w_begin (ex_writer st))
        with (len + (cur - w_begin (ex_writer st) + 1 * 4)) by lia.
      rewrite Z.add_mod by lia. rewrite Z.mod_add by lia.
      rewrite Halign, Z.add_0_r, Z.mod_mod by lia. lia. }
    apply IH in Hrec; simpl in *.
    + lia.
    + left.
      replace (cur + (4 + len) + pad - w_begin (ex_writer st))
        with (cur - w_begin (ex_writer st) + 4 + kaa_aligned_size_get len)
        by lia.
      apply aligned_step; [done|apply kaa_aligned_size_get_mod4].
  - apply Z.leb_gt in Hfit.
    destruct (extract_records fuel id _) as [[ex rest]|] eqn:Hrec; [|done].
    injection Hrun as <- <-. rewrite Hsum.
    apply IH in Hrec; simpl in *.
    + lia.
    + right. lia.
Qed.

End WrittenFacts.

Section BudgetFacts.
Context {storage_t strategy_t : Type}.
Context `{!ext_log_storage storage_t}.
Context `{!ext_log_upload_strategy strategy_t storage_t}.

(** X8.  The budget, for a storage that never delivers more than the length
    it is given.  After a call that returns [KAA_ERR_NONE], on a writer whose
    cursor was on a 4-byte boundary of the message, with a budget that is
    not negative and a multiple of 4: the bytes written for the records are
    at most the sizes charged to the budget (prefix, payload and padding to
    4 bytes), and these stay within the budget unless some of the records,
    with more to follow, filled it exactly. *)
Theorem serialize_overruns_only_a_full_bucket
    (c : @kaa_log_collector_t storage_t strategy_t)
    (w w' : kaa_platform_message_writer_t) (m : gmap Z Z) r :
  storage_honours_buffer_len storage_t ->
  kaa_logging_request_serialize (Some c) (Some w) m = Some r ->
  ret (ser_outcome r) = KAA_ERR_NONE ->
  ser_writer r = Some w' ->
  let records :=
    w_current w + KAA_EXTENSION_HEADER_SIZE + sizeof_uint16_t
    + sizeof_uint16_t in
  let budget :=
    bucket_budget c (mk_writer (w_begin w) records (w_end w)) in
  let charged := charged_size <$> record_lens (calls (ser_outcome r)) in
  (w_current w - w_begin w) mod 4 = 0 ->
  0 <= budget -> budget mod 4 = 0 ->
  w_current w' - records <= sum_list charged
  ∧ (sum_list charged <= budget
     ∨ ∃ k, (k < length charged)%nat
            ∧ sum_list (take k charged) = budget).
Proof.
  intros Hhon.
  destruct (log_storage c) as [s|] eqn:Hs.
  2:{ unfold kaa_logging_request_serialize. rewrite Hs. by intros [= <-]. }
  destruct (serialize_cases c s w m Hs)
    as [[_ ->]|[_ (e & id0 & Hseed &
                   [[He (m' & ->)]|[-> (exit & evs & Hrun & ->)]])]];
    try by intros [= <-].
  cbv zeta in Hrun. intros [= <-].
  destruct exit as [st|err st]; simpl.
  2:{ intros ->. by apply extract_records_return in Hrun. }
  intros _ [= <-] Halign Hb Hmod.
  pose proof (ssize_t_range
    (let room := size_t (w_end w - (w_current w + KAA_EXTENSION_HEADER_SIZE
                                    + sizeof_uint16_t + sizeof_uint16_t)) in
     if max_log_bucket_size (log_properties c) <? room
     then max_log_bucket_size (log_properties c) else room)) as Hrange.
  split.
  - apply (extract_records_written _ _ _ _ _ Hrun). left. simpl.
    unfold KAA_EXTENSION_HEADER_SIZE, sizeof_uint16_t.
    replace (w_current w + 8 + 2 + 2 - w_begin w)
      with (w_current w - w_begin w + 3 * 4) by lia.
    by rewrite Z.mod_add by lia.
  - destruct (extract_records_budget _ _ _ _ _ Hhon Hrun)
      as [Hle|(k & Hk & Hsum)]; [split; [exact Hb|apply Hrange]|exact Hmod| |].
    + by left.
    + right. exists k. rewrite length_fmap. split; [done|].
      by rewrite <- fmap_take.
Qed.

End BudgetFacts.

(** ** The operations and the configuration *)

Section ConfigurationFacts.
Context {storage_t strategy_t : Type}.
Context `{!ext_log_storage storage_t}.
Context `{!ext_log_upload_strategy strategy_t storage_t}.
Variable avro_writer_memory : Z -> bool.

Lemma update_storage_same_configuration
    (c : @kaa_log_collector_t storage_t strategy_t) :
  same_configuration c (update_storage c).1.
Proof.
  unfold update_storage, same_configuration.
  repeat case_match; simpl; split_and!; try done; by eauto.
Qed.

Lemma same_configuration_trans
    (c1 c2 c3 : @kaa_log_collector_t storage_t strategy_t) :
  same_configuration c1 c2 -> same_configuration c2 c3 ->
  same_configuration c1 c3.
Proof.
  unfold same_configuration. intros (? & ? & ? & ? & ?) (? & ? & ? & ? & ?).
  split_and!; [by eauto|congruence..].
Qed.

Lemma set_log_storage_same_configuration
    (c : @kaa_log_collector_t storage_t strategy_t) s :
  same_configuration c (set_log_storage c s).
Proof. unfold same_configuration. simpl. split_and!; by eauto. Qed.

Lemma set_log_bucket_id_same_configuration
    (c : @kaa_log_collector_t storage_t strategy_t) id :
  same_configuration c (set_log_bucket_id c id).
Proof. unfold same_configuration. simpl. by split_and!. Qed.

Lemma same_configuration_refl
    (c : @kaa_log_collector_t storage_t strategy_t) :
  same_configuration c c.
Proof. unfold same_configuration. by split_and!. Qed.

(** X13.  [kaa_logging_add_record], [kaa_logging_request_get_size],
    [kaa_logging_request_serialize] and [kaa_logging_handle_server_sync]
    keep the configuration of the collector, whatever their arguments and
    their result: strategy, properties, status and channel manager are
    unchanged and an initialised collector remains initialised.
    [kaa_logging_request_get_size] changes nothing at all. *)
Theorem operations_keep_configuration
    (c : @kaa_log_collector_t storage_t strategy_t)
    (entry : option kaa_user_log_record_t) (size : option Z)
    (writer : option kaa_platform_message_writer_t)
    (reader : option kaa_platform_message_reader_t) (m : gmap Z Z)
    (extension_options extension_length : Z) :
  (∃ c', self_after (kaa_logging_add_record avro_writer_memory (Some c) entry)
         = Some c' ∧ same_configuration c c')
  ∧ (kaa_logging_request_get_size (Some c) size).1.(self_after) = Some c
  ∧ (∃ r c', kaa_logging_request_serialize (Some c) writer m = Some r
             ∧ self_after (ser_outcome r) = Some c'
             ∧ same_configuration c c')
  ∧ (∃ c', self_after
             (kaa_logging_handle_server_sync (Some c) reader m
                extension_options extension_length).1 = Some c'
           ∧ same_configuration c c').
Proof.
  split_and!.
  - unfold kaa_logging_add_record.
    repeat case_match; simpl; eexists; (split; [done|]);
      try apply same_configuration_refl;
      try apply set_log_storage_same_configuration.
    match goal with
    | H : update_storage ?x = _ |- _ =>
      pose proof (update_storage_same_configuration x) as Hu; rewrite H in Hu
    end.
    eapply same_configuration_trans; [|exact Hu].
    apply set_log_storage_same_configuration.
  - unfold kaa_logging_request_get_size. by repeat case_match.
  - destruct writer as [w|].
    2:{ eexists _, _.
        split_and!; [done|done|apply same_configuration_refl]. }
    destruct (log_storage c) as [s|] eqn:Hs.
    2:{ unfold kaa_logging_request_serialize. rewrite Hs.
        eexists _, _. split_and!; [done|done|apply same_configuration_refl]. }
    destruct (serialize_cases c s w m Hs)
      as [[_ ->]|[_ (e & id0 & Hseed &
                     [[He (m' & ->)]|[-> (exit & evs & Hrun & ->)]])]].
    + eexists _, _. split_and!; [done|done|apply same_configuration_refl].
    + eexists _, _. split_and!; [done|done|].
      apply set_log_bucket_id_same_configuration.
    + destruct exit; eexists _, _; (split_and!; [done|done|]);
        (eapply same_configuration_trans;
         [apply set_log_bucket_id_same_configuration
         |apply set_log_storage_same_configuration]).
  - unfold kaa_logging_handle_server_sync, resolve_bucket.
    repeat case_match; simplify_eq; simpl; eexists; (split; [done|]);
      try apply same_configuration_refl;
      match goal with
      | H : update_storage ?x = _ |- _ =>
        pose proof (update_storage_same_configuration x) as Hu;
          rewrite H in Hu
      end;
      (eapply same_configuration_trans; [|exact Hu]);
      try apply same_configuration_refl;
      apply set_log_storage_same_configuration.
Qed.


(** X12.  Whatever figures the storage reports, the estimate of
    [kaa_logging_request_get_size] lies between the extension header plus 4
    and that plus [max_log_bucket_size] (for a bucket size that leaves the
    sum within [size_t]). *)
Theorem request_size_estimate_bounds
    (c : @kaa_log_collector_t storage_t strategy_t) (s : storage_t)
    (expected_size : Z) :
  log_storage c = Some s ->
  0 <= max_log_bucket_size (log_properties c) ->
  KAA_EXTENSION_HEADER_SIZE + 4 + max_log_bucket_size (log_properties c)
    < 2 ^ 64 ->
  ∃ estimate,
    (kaa_logging_request_get_size (Some c) (Some expected_size)).2
    = Some estimate
    ∧ KAA_EXTENSION_HEADER_SIZE + 4 <= estimate
      <= KAA_EXTENSION_HEADER_SIZE + 4
         + max_log_bucket_size (log_properties c).
Proof.
  intros Hs Hb Hfit. unfold kaa_logging_request_get_size. rewrite Hs. simpl.
  eexists. split; [done|].
  unfold KAA_EXTENSION_HEADER_SIZE, sizeof_uint32_t in *.
  unfold KAA_MAX_PADDING_LENGTH.
  set (actual := size_t (_ * 4 + _ * 3 + _)).
  assert (Ha : 0 <= actual < 2 ^ 64)
    by (subst actual; unfold size_t; apply Z.mod_pos_bound; lia).
  rewrite (size_t_small (8 + 4)) by lia.
  set (bucket := max_log_bucket_size (log_properties c)) in *.
  destruct (actual <? bucket) eqn:Hlt.
  - apply Z.ltb_lt in Hlt. rewrite size_t_small by lia. lia.
  - rewrite size_t_small by lia. lia.
Qed.

(** X10.  For an extension of 4 bytes or more, what
    [kaa_logging_handle_server_sync] does to the collector and which calls
    it makes depend on bytes 0, 1 and 2 at the reader's cursor only: not on
    byte 3 or any later byte, not on the extension options, not on the
    length beyond 4, and not on the bounds of the reader. *)
Theorem handle_server_sync_reads_three_bytes
    (c : @kaa_log_collector_t storage_t strategy_t)
    (r r' : kaa_platform_message_reader_t) (m m' : gmap Z Z)
    (options options' len len' : Z) :
  4 <= len -> 4 <= len' ->
  r_current r = r_current r' ->
  (∀ a, r_current r <= a <= r_current r + 2 -> load8 m a = load8 m' a) ->
  (kaa_logging_handle_server_sync (Some c) (Some r) m options len).1
  = (kaa_logging_handle_server_sync (Some c) (Some r') m' options' len').1.
Proof.
  intros Hlen Hlen' Hcur Hbytes.
  unfold kaa_logging_handle_server_sync, sizeof_uint32_t, sizeof_uint16_t.
  destruct (4 <=? len) eqn:H1; [|apply Z.leb_gt in H1; lia].
  destruct (4 <=? len') eqn:H2; [|apply Z.leb_gt in H2; lia].
  simpl r_current. rewrite <- Hcur.
  rewrite (load_ntohs_ext m m' (r_current r)) by (apply Hbytes; lia).
  rewrite (Hbytes (r_current r + 2)) by lia.
  destruct (resolve_bucket _ _ _) as [c1 ev].
  by destruct (update_storage c1).
Qed.

End ConfigurationFacts.

(** *** Instances of the further properties *)

Lemma serialize_record_lengths_round_trip_witness :
  ∃ r w',
    kaa_logging_request_serialize
      (Some (sample_collector 0 1024 ragged_records)) (Some sample_writer) ∅
    = Some r
    ∧ ser_writer r = Some w'
    ∧ record_lens (calls (ser_outcome r)) = [5; 2; 4]
    ∧ decode_record_lens (ser_mem r) 12 3 = [5; 2; 4].
Proof.
  eexists _, _. split; [vm_compute; reflexivity|].
  split; [reflexivity|]. split; [reflexivity|].
  match goal with
  | |- decode_record_lens (ser_mem ?r) _ _ = _ =>
    pose proof (serialize_record_lengths_round_trip
                  (sample_collector 0 1024 ragged_records) sample_writer
                  (mk_writer 0 40 1024) ∅ r) as Hround
  end.
  apply Hround;
    [vm_compute; reflexivity|reflexivity|reflexivity|reflexivity
    |vm_compute; discriminate|reflexivity].
Defined.

Lemma serialize_room_is_not_clamped_witness :
  log_storage (sample_collector 0 16 three_records) = Some three_records
  ∧ w_end header_only_writer
    < w_current header_only_writer + KAA_EXTENSION_HEADER_SIZE + 4
  ∧ ∃ r e n rest,
      kaa_logging_request_serialize
        (Some (sample_collector 0 16 three_records))
        (Some header_only_writer) ∅ = Some r
      ∧ calls (ser_outcome r) = call_write_next_record 12 1 e n :: rest.
Proof.
  split; [reflexivity|]. split; [reflexivity|].
  destruct (serialize_room_is_not_clamped
              (sample_collector 0 16 three_records) three_records
              header_only_writer ∅ 0)
    as (r & e & n & rest & Hr & Hcalls);
    [reflexivity|reflexivity|vm_compute; discriminate|reflexivity
    |split; [vm_compute; discriminate|reflexivity]|].
  exists r, e, n, rest. split; [exact Hr|exact Hcalls].
Defined.

Lemma serialize_overruns_only_a_full_bucket_witness :
  ∃ r w',
    kaa_logging_request_serialize
      (Some (sample_collector 0 16 three_records)) (Some sample_writer) ∅
    = Some r
    ∧ ser_writer r = Some w'
    ∧ charged_size <$> record_lens (calls (ser_outcome r)) = [8; 8; 8]
    ∧ (sum_list (charged_size <$> record_lens (calls (ser_outcome r))) <= 16
       ∨ ∃ k, (k < length (charged_size <$>
                             record_lens (calls (ser_outcome r))))%nat
              ∧ sum_list
                  (take k
                     (charged_size <$> record_lens (calls (ser_outcome r))))
                = 16).
Proof.
  eexists _, _. split; [vm_compute; reflexivity|].
  split; [reflexivity|]. split; [reflexivity|].
  match goal with
  | |- context [ser_outcome ?r] =>
    pose proof (serialize_overruns_only_a_full_bucket
                  (sample_collector 0 16 three_records) sample_writer
                  (mk_writer 0 36 1024) ∅ r
                  memory_storage_honours_buffer_len) as Hbudget
  end.
  apply Hbudget;
    [vm_compute; reflexivity|reflexivity|reflexivity|reflexivity
    |vm_compute; discriminate|reflexivity].
Defined.

Lemma first_bucket_id_after_init_witness :
  w_current sample_writer + KAA_EXTENSION_HEADER_SIZE <= w_end sample_writer
  ∧ ∃ r c',
      kaa_logging_request_serialize
        (Some (sample_collector 7 1024 three_records)) (Some sample_writer) ∅
      = Some r
      ∧ self_after (ser_outcome r) = Some c'
      ∧ log_bucket_id c' = 8.
Proof.
  split; [vm_compute; discriminate|].
  destruct (first_bucket_id_after_init (strategy_t := volume_strategy)
              (mk_status 7) (Some (mk_channel_manager true)) three_records
              sample_strategy (mk_properties 4096 1024) sample_writer ∅
              ltac:(vm_compute; discriminate))
    as (c0 & c & r & c' & [= <-] & [= <-] & Hr & Hc' & Hid & _).
  exists r, c'. by split_and!.
Defined.

Lemma handle_server_sync_reads_three_bytes_witness :
  (kaa_logging_handle_server_sync
     (Some (sample_collector 0 1024 marked_storage)) (Some ack_reader)
     (ack_message 0) 0 4).1
  = (kaa_logging_handle_server_sync
       (Some (sample_collector 0 1024 marked_storage))
       (Some (mk_reader 0 0 2)) (store_bytes ∅ 0 [0; 1; 0; 255; 9]) 5 8).1.
Proof.
  apply handle_server_sync_reads_three_bytes;
    [vm_compute; discriminate|vm_compute; discriminate|reflexivity|].
  intros a Ha. simpl in Ha.
  assert (Hcases : a = 0 ∨ a = 1 ∨ a = 2) by lia.
  destruct Hcases as [->|[->| ->]]; reflexivity.
Defined.


Lemma request_size_estimate_bounds_witness :
  log_storage (sample_collector 0 16 three_records) = Some three_records
  ∧ ∃ estimate,
      (kaa_logging_request_get_size
         (Some (sample_collector 0 16 three_records)) (Some 0)).2
      = Some estimate
      ∧ 12 <= estimate <= 28.
Proof.
  split; [reflexivity|].
  exact (request_size_estimate_bounds
           (sample_collector 0 16 three_records) three_records 0 eq_refl
           ltac:(vm_compute; discriminate) eq_refl).
Defined.
